(** * Codex7: hybrid retrieval and graph-augmented reranking

    A shallow embedding of the parts of the repository that the
    specification's testable properties talk about:

    - [GraphBuilder]       python/graph/graph_builder.py
    - [JsonGraphClient]    src/graph/json_graph_client.py
    - [GraphReranker]      src/search/rerank_service.py
    - [HybridSearch]       src/search/hybrid_search.py (BM25Search, HybridSearch)

    Python [float] is IEEE binary64 and is modelled by Rocq's primitive
    floats, so concrete scores evaluate to the very numbers the program
    computes.  Python dictionaries keyed by strings are [gmap string _]
    where only lookups matter, and association lists where iteration order
    matters.  External collaborators (tree-sitter, the vector index, the
    BM25 library, the graph store seen through duck typing) are inputs or
    section variables. *)

From Stdlib Require Import Ascii String Floats.
From stdpp Require Import gmap strings list fin_maps.

Set Default Proof Using "Type".
Set Warnings "-inexact-float,-clear-no-such-hyp".
Local Open Scope string_scope.
Local Open Scope list_scope.
Local Open Scope nat_scope.

(** ** Exceptions

    A Python call either returns a value or raises.  [try ... except
    Exception] is [catch]. *)

Inductive result (A : Type) : Type :=
| Ok (a : A)
| Raise (msg : string).
Arguments Ok {A} a.
Arguments Raise {A} msg.

Definition bind {A B} (m : result A) (k : A -> result B) : result B :=
  match m with
  | Ok a => k a
  | Raise e => Raise e
  end.

Definition catch {A} (m : result A) (handler : string -> result A) : result A :=
  match m with
  | Ok a => Ok a
  | Raise e => handler e
  end.

#[global] Instance result_bind : MBind result := fun A B k m => bind m k.
#[global] Instance result_ret : MRet result := fun A a => Ok a.

(** [for x in xs: body], where the body may raise and threads a state. *)
Fixpoint for_each {A S} (body : S -> A -> result S) (xs : list A) (s : S) : result S :=
  match xs with
  | [] => Ok s
  | x :: xs' => s' ← body s x; for_each body xs' s'
  end.

(** ** Sorting

    [sorted(xs, key=k, reverse=True)] and [xs.sort(key=k, reverse=True)]:
    descending by key, items with equal keys in their original order.
    Keys are compared with [<] only, as Python does.  This is Python's
    result whenever no key is NaN.  With a NaN among the keys [<] is not an
    order, and which of the possible lists Python's merge sort returns
    depends on the runs it finds: the insertion sort below is then one
    such list, not necessarily Python's. *)

Section Sorting.
Context {A : Type} (key : A → float).

Fixpoint insert_desc (x : A) (l : list A) : list A :=
  match l with
  | [] => [x]
  | y :: l' => if (key x <? key y)%float then y :: insert_desc x l' else x :: l
  end.

Definition sorted_desc (l : list A) : list A := foldr insert_desc [] l.
End Sorting.

(** No item is directly followed by one with a strictly greater key. *)
Definition descending {A : Type} (key : A → float) (l : list A) : Prop :=
  ∀ i x y, l !! i = Some x → l !! S i = Some y → (key x <? key y)%float = false.

(** Equality of floats as values (bit for bit, so that a NaN equals
    itself), decided by the kernel test. *)
#[global] Instance float_eq_dec : EqDecision float.
Proof.
  intros x y. destruct (PrimFloat.Leibniz.eqb x y) eqn:E.
  - left. by apply FloatAxioms.Leibniz.eqb_spec.
  - right. intros Hxy. apply FloatAxioms.Leibniz.eqb_spec in Hxy. congruence.
Defined.

(** [x == x]: every float but NaN. *)
Definition not_nan (x : float) : Prop := (x =? x)%float = true.

(** ** The extractor: python/graph/graph_builder.py *)

Module GraphBuilder.

(** What the extractor reads of a tree-sitter node: its text, the text of
    its named field children ([child_by_field_name(f).text]) and the rows
    of its start and end points. *)
Record TSNode := {
  text : string;
  fields : list (string * string);
  start_line : nat;
  end_line : nat
}.

Definition child_by_field_name (n : TSNode) (f : string) : option string :=
  snd <$> List.find (fun kv => String.eqb (fst kv) f) (fields n).

(** [query.captures(root_node)] of the four queries of one language: pairs
    of a node and the capture name.  Parsing and querying belong to
    tree-sitter; the extractor only consumes these lists. *)
Record Captures := {
  imports : list (TSNode * string);
  classes : list (TSNode * string);
  functions : list (TSNode * string);
  calls : list (TSNode * string)
}.

(** models.py: [Node.id] defaults to a fresh [uuid4]; freshness is a
    counter here. *)
Record Node := {
  id : nat;
  label : string;
  properties : list (string * string)
}.

Record Relationship := {
  source_id : nat;
  target_id : nat;
  type : string
}.

#[global] Instance Relationship_eq_dec : EqDecision Relationship.
Proof. solve_decision. Defined.

Record FuncDef := {
  fd_name : string;
  fd_id : nat;
  fd_start_line : nat;
  fd_end_line : nat
}.

(** The local variables of [_extract_entities_and_relations]. *)
Record Extract := {
  next_id : nat;
  nodes : list Node;
  relationships : list Relationship;
  entity_map : gmap string (nat * string);
  function_definitions : list FuncDef
}.

Definition new_node (st : Extract) (lbl : string) (props : list (string * string))
           (kind : string) (key : string) : Extract :=
  let n := {| id := next_id st; label := lbl; properties := props |} in
  {| next_id := S (next_id st);
     nodes := nodes st ++ [n];
     relationships := relationships st;
     entity_map := <[key := (id n, kind)]> (entity_map st);
     function_definitions := function_definitions st |}.

Definition add_relationship (st : Extract) (r : Relationship) : Extract :=
  {| next_id := next_id st;
     nodes := nodes st;
     relationships := relationships st ++ [r];
     entity_map := entity_map st;
     function_definitions := function_definitions st |}.

Definition add_function_definition (st : Extract) (fd : FuncDef) : Extract :=
  {| next_id := next_id st;
     nodes := nodes st;
     relationships := relationships st;
     entity_map := entity_map st;
     function_definitions := function_definitions st ++ [fd] |}.

(** Line 130 of the file as shipped calls [strip] on the capture's text
    with an argument written as a double quote, a single quote and two
    more double quotes: the second string literal is never closed, so the
    file is not well-formed Python and importing the module raises
    [SyntaxError] before any of its functions exists.  Everything in this
    module is the text of the file with that literal closed, the argument
    being the string of the single and the double quote character:
    [s.strip(chars)] for the two quote characters.  The line is only
    reached for captures of the import query. *)
Definition is_quote (c : Ascii.ascii) : bool :=
  bool_decide (c = "'"%char) || bool_decide (c = Ascii.ascii_of_nat 34).

Fixpoint lstrip_quotes (s : string) : string :=
  match s with
  | String c s' => if is_quote c then lstrip_quotes s' else s
  | EmptyString => EmptyString
  end.

Fixpoint rstrip_quotes (s : string) : string :=
  match s with
  | String c s' =>
      match rstrip_quotes s' with
      | EmptyString => if is_quote c then EmptyString else String c EmptyString
      | t => String c t
      end
  | EmptyString => EmptyString
  end.

Definition strip_quotes (s : string) : string := rstrip_quotes (lstrip_quotes s).

(** *** Pass 1 *)

Definition import_step (file_id : nat) (st : Extract) (cap : TSNode * string) : Extract :=
  let name := strip_quotes (text (fst cap)) in
  match entity_map st !! name with
  | Some _ => st
  | None =>
      let st1 := new_node st "Module" [("name", name)] "Module" name in
      add_relationship st1
        {| source_id := file_id; target_id := next_id st; type := "IMPORTS" |}
  end.

(** The class loop also carries [current_class_name]; [None] is Python's
    [None], and an empty name is falsy as well. *)
Definition truthy (s : option string) : bool :=
  match s with
  | Some (String _ _) => true
  | _ => false
  end.

Definition class_step (file_id : nat) (file_path : string)
           (acc : Extract * option string) (cap : TSNode * string)
  : Extract * option string :=
  let '(st, current_class_name) := acc in
  let '(node, name) := cap in
  if String.eqb name "class_def" then (st, None)
  else if String.eqb name "name" then
    let class_name := text node in
    let st1 := new_node st "Class" [("name", class_name); ("file_path", file_path)]
                        "Class" class_name in
    (add_relationship st1
       {| source_id := file_id; target_id := next_id st; type := "CONTAINS" |},
     Some class_name)
  else if String.eqb name "superclass" && truthy current_class_name then
    let superclass_name := text node in
    let st1 :=
      match entity_map st !! superclass_name with
      | Some _ => st
      | None => new_node st "Class" [("name", superclass_name)] "Class" superclass_name
      end in
    match current_class_name ≫= (fun c => entity_map st1 !! c),
          entity_map st1 !! superclass_name with
    | Some (cid, _), Some (sid, _) =>
        (add_relationship st1
           {| source_id := cid; target_id := sid; type := "INHERITS_FROM" |},
         current_class_name)
    | _, _ => (st1, current_class_name)
    end
  else (st, current_class_name).

Definition function_step (file_id : nat) (file_path : string)
           (st : Extract) (cap : TSNode * string) : Extract :=
  let node := fst cap in
  match child_by_field_name node "name" with
  | None => st
  | Some func_name =>
      let st1 := new_node st "Function" [("name", func_name); ("file_path", file_path)]
                          "Function" func_name in
      let st2 := add_relationship st1
        {| source_id := file_id; target_id := next_id st; type := "CONTAINS" |} in
      add_function_definition st2
        {| fd_name := func_name; fd_id := next_id st;
           fd_start_line := start_line node; fd_end_line := end_line node |}
  end.

Definition pass1 (file_id : nat) (file_path : string) (caps : Captures) (st : Extract)
  : Extract :=
  let st1 := foldl (import_step file_id) st (imports caps) in
  let st2 := fst (foldl (class_step file_id file_path) (st1, None) (classes caps)) in
  foldl (function_step file_id file_path) st2 (functions caps).

(** *** Pass 2 *)

(** The first declaration whose span holds the call's line. *)
Definition find_caller (fds : list FuncDef) (call_line : nat) : option FuncDef :=
  List.find (fun fd => Nat.leb (fd_start_line fd) call_line
                       && Nat.leb call_line (fd_end_line fd))
            fds.

(** The relationships one capture of the call query appends. *)
Definition call_edges (fds : list FuncDef) (emap : gmap string (nat * string))
           (cap : TSNode * string) : list Relationship :=
  let node := fst cap in
  match child_by_field_name node "function" with
  | None => []
  | Some called_func_name =>
      let call_line := start_line node in
      match find_caller fds call_line, emap !! called_func_name with
      | Some caller_func, Some (callee_id, _) =>
          [{| source_id := fd_id caller_func; target_id := callee_id; type := "CALLS" |}]
      | _, _ => []
      end
  end.

Definition pass2 (caps : Captures) (st : Extract) : list Relationship :=
  match function_definitions st with
  | [] => []
  | _ :: _ => flat_map (call_edges (function_definitions st) (entity_map st)) (calls caps)
  end.

Definition initial (fresh : nat) : Extract :=
  {| next_id := fresh; nodes := []; relationships := [];
     entity_map := ∅; function_definitions := [] |}.

Definition _extract_entities_and_relations
           (caps : Captures) (file_id : nat) (file_path : string) (fresh : nat)
  : list Node * list Relationship :=
  let st1 := pass1 file_id file_path caps (initial fresh) in
  (nodes st1, relationships st1 ++ pass2 caps st1).

(** [Path(file_path).name] on a POSIX path: the last component, where
    empty components (a leading, doubled or trailing slash) and [.]
    components do not count; empty when there is none. *)
Fixpoint split_slash (p : string) : list string :=
  match p with
  | EmptyString => [EmptyString]
  | String c p' =>
      if bool_decide (c = "/"%char) then EmptyString :: split_slash p'
      else match split_slash p' with
           | part :: rest => String c part :: rest
           | [] => [String c EmptyString]
           end
  end.

Definition path_name (p : string) : string :=
  default EmptyString
          (last (List.filter (fun part => negb (String.eqb part "" || String.eqb part "."))
                             (split_slash p))).

(** [build_graph_for_file].  [parsed] is [None] when the extension is not
    supported or the parser raised.  After the tuple assignment the name
    [relationships] is bound to the list the helper returned, so
    [relationships.extend(relationships)] extends that list by itself. *)
Definition build_graph_for_file (file_path : string) (parsed : option Captures)
  : list Node * list Relationship :=
  match parsed with
  | None => ([], [])
  | Some caps =>
      let file_node := {| id := 0; label := "File";
                          properties := [("name", path_name file_path); ("path", file_path)] |} in
      let '(entities, relationships) :=
        _extract_entities_and_relations caps (id file_node) file_path 1 in
      ([file_node] ++ entities, relationships ++ relationships)
  end.

(** *** A small file

    [hello_main]: the captures tree-sitter reports for
<<
def hello():
    return 1

def main():
    hello()
>>
    Rows count from 0. *)

Definition nl : string := String (Ascii.ascii_of_nat 10) EmptyString.

Definition identifier (name : string) (row : nat) : TSNode :=
  {| text := name; fields := []; start_line := row; end_line := row |}.

Definition function_definition (src name : string) (first last : nat) : TSNode :=
  {| text := src; fields := [("name", name); ("parameters", "()")];
     start_line := first; end_line := last |}.

Definition call (callee : string) (row : nat) : TSNode :=
  {| text := callee +:+ "()"; fields := [("function", callee); ("arguments", "()")];
     start_line := row; end_line := row |}.

Definition hello_main : Captures :=
  {| imports := [];
     classes := [];
     functions :=
       [ (function_definition ("def hello():" +:+ nl +:+ "    return 1") "hello" 0 1,
          "func_def");
         (identifier "hello" 0, "name");
         (function_definition ("def main():" +:+ nl +:+ "    hello()") "main" 3 4,
          "func_def");
         (identifier "main" 3, "name") ];
     calls := [ (call "hello" 4, "call_expr"); (identifier "hello" 4, "name") ] |}.

Definition main_calls_hello : Relationship :=
  {| source_id := 2; target_id := 1; type := "CALLS" |}.

End GraphBuilder.

(** ** Shared data: src/types.py *)

(** A value stored under a [Dict[str, Any]]. *)
#[warnings="-register-all"]
Inductive pyvalue : Type :=
| PStr (s : string)
| PInt (z : Z)
| PFloat (f : float)
| PList (l : list pyvalue)
| PDict (d : list (string * pyvalue)).

Record CodeChunk := {
  chunk_id : string;
  chunk_file_path : string;
  content : string;
  chunk_start_line : Z;
  chunk_end_line : Z;
  language : string;
  chunk_type : string;
  cmetadata : gmap string pyvalue
}.

Record GraphNode := {
  node_id : string;
  node_type : string;
  node_properties : gmap string pyvalue;
  node_file_path : string;
  line_number : Z
}.

Record GraphEdge := {
  source_id : string;
  target_id : string;
  relationship_type : string;
  edge_properties : gmap string pyvalue
}.

Record GraphResult := {
  nodes : list GraphNode;
  edges : list GraphEdge;
  graph_metadata : list (string * pyvalue)
}.

Record SearchResult := {
  chunk : CodeChunk;
  score : float;
  rank : nat;
  search_type : string;
  metadata : gmap string pyvalue
}.

(** [d.get(key, default)] *)
Definition dict_get (d : gmap string pyvalue) (key : string) (default : pyvalue) : pyvalue :=
  match d !! key with
  | Some v => v
  | None => default
  end.

(** The chunk ids of a result list, in order. *)
Definition ids (l : list SearchResult) : list string := (fun r => chunk_id (chunk r)) <$> l.

(** The uniqueness key of a relationship. *)
Definition edge_key (e : GraphEdge) : string * string * string :=
  (source_id e, target_id e, relationship_type e).

(** ** The graph store: src/graph/json_graph_client.py

    [self.data] holds the node dictionary keyed by id and the edge list.
    [_save_data], which writes the file and stamps the time, is left out:
    no query reads what it writes.

    A node is stored as a dict the client builds itself.  An edge is
    stored with the properties dict the caller passed, the object itself
    and not a copy, and [update] changes that object in place: two edges
    created with the same dict share it.  So the edge list holds
    references, and the contents of the dicts are kept by object. *)

Module JsonGraphClient.

(** A properties dict, as an object: [inl n] is a dict of the caller,
    [inr n] the [n]-th dict [create_relationship] made for a missing
    argument. *)
Definition ref : Type := nat + nat.

(** An entry of [self.data["edges"]]. *)
Record EdgeData := {
  ed_source_id : string;
  ed_target_id : string;
  ed_relationship_type : string;
  ed_properties : ref
}.

(** [dicts] gives the present contents of the properties dicts, an object
    without entry being empty; [made] counts the dicts the client made.
    In every store reached from [_initialize_data] the dicts [inr n] in
    use have [n < made]. *)
Record GraphData := {
  data_nodes : gmap string GraphNode;
  edge_list : list EdgeData;
  dicts : gmap ref (gmap string pyvalue);
  made : nat
}.

Definition deref (s : GraphData) (r : ref) : gmap string pyvalue :=
  default ∅ (dicts s !! r).

(** The [GraphEdge] the queries build from an entry of the edge list:
    the entry read now. *)
Definition edge_of (s : GraphData) (ed : EdgeData) : GraphEdge :=
  {| source_id := ed_source_id ed; target_id := ed_target_id ed;
     relationship_type := ed_relationship_type ed;
     edge_properties := deref s (ed_properties ed) |}.

(** [self.data["edges"]] read now: each edge with the present contents of
    its properties dict. *)
Definition data_edges (s : GraphData) : list GraphEdge := edge_of s <$> edge_list s.

Definition raw_key (ed : EdgeData) : string * string * string :=
  (ed_source_id ed, ed_target_id ed, ed_relationship_type ed).

Definition _initialize_data : GraphData :=
  {| data_nodes := ∅; edge_list := []; dicts := ∅; made := 0 |}.

(** The caller builds a dict: object [inl n] with these entries. *)
Definition new_dict (s : GraphData) (n : nat) (entries : gmap string pyvalue) : GraphData :=
  {| data_nodes := data_nodes s; edge_list := edge_list s;
     dicts := <[inl n := entries]> (dicts s); made := made s |}.

Definition put_node (s : GraphData) (key : string) (n : GraphNode) : GraphData :=
  {| data_nodes := <[key := n]> (data_nodes s); edge_list := edge_list s;
     dicts := dicts s; made := made s |}.

Definition file_node (file_path language file_type : string)
           (metadata : option (gmap string pyvalue)) : GraphNode :=
  let metadata := match metadata with Some m => m | None => ∅ end in
  {| node_id := file_path;
     node_type := "File";
     node_properties :=
       list_to_map
         [ ("path", PStr file_path); ("language", PStr language);
           ("file_type", PStr file_type);
           ("file_size", dict_get metadata "file_size" (PInt 0));
           ("created_at", dict_get metadata "created_at" (PStr ""));
           ("updated_at", dict_get metadata "updated_at" (PStr "")) ];
     node_file_path := file_path;
     line_number := 0 |}.

Definition create_file_node (s : GraphData) (file_path language file_type : string)
           (metadata : option (gmap string pyvalue)) : GraphData :=
  put_node s file_path (file_node file_path language file_type metadata).

Definition chunk_node (c : CodeChunk) : GraphNode :=
  let metadata := cmetadata c in
  {| node_id := chunk_id c;
     node_type := "Chunk";
     node_properties :=
       list_to_map
         [ ("content", PStr (content c)); ("start_line", PInt (chunk_start_line c));
           ("end_line", PInt (chunk_end_line c)); ("language", PStr (language c));
           ("chunk_type", PStr (chunk_type c));
           ("file_size", dict_get metadata "file_size" (PInt 0));
           ("chunk_index", dict_get metadata "chunk_index" (PInt 0));
           ("ast_node_type", dict_get metadata "ast_node_type" (PStr "")) ];
     node_file_path := chunk_file_path c;
     line_number := chunk_start_line c |}.

Definition create_chunk_node (s : GraphData) (c : CodeChunk) : GraphData :=
  put_node s (chunk_id c) (chunk_node c).

Definition code_entity_node (kind name qualified_name file_path : string) (line : Z)
           (metadata : gmap string pyvalue) : GraphNode :=
  {| node_id := qualified_name;
     node_type := kind;
     node_properties :=
       list_to_map
         [ ("name", PStr name); ("qualified_name", PStr qualified_name);
           ("file_path", PStr file_path); ("line_number", PInt line);
           ("created_at", dict_get metadata "created_at" (PStr ""));
           ("updated_at", dict_get metadata "updated_at" (PStr "")) ];
     node_file_path := file_path;
     line_number := line |}.

Definition create_function_node (s : GraphData) (name qualified_name file_path : string)
           (line : Z) (metadata : gmap string pyvalue) : GraphData :=
  put_node s qualified_name
           (code_entity_node "Function" name qualified_name file_path line metadata).

Definition create_class_node (s : GraphData) (name qualified_name file_path : string)
           (line : Z) (metadata : gmap string pyvalue) : GraphData :=
  put_node s qualified_name
           (code_entity_node "Class" name qualified_name file_path line metadata).

Definition same_key (src tgt ty : string) (edge : EdgeData) : bool :=
  String.eqb (ed_source_id edge) src && String.eqb (ed_target_id edge) tgt
  && String.eqb (ed_relationship_type edge) ty.

(** [create_relationship].  The scan stops at the first edge with the
    triple and updates its properties dict in place, the new entries
    winning; every edge that holds the same dict shows the change.  With
    no such edge a new entry is appended, holding the caller's dict
    itself.  [properties = {}] for a missing argument makes a new dict; it
    is only kept when the entry is appended, so only then is it given a
    name. *)
Definition create_relationship (s : GraphData) (src tgt ty : string)
           (properties : option ref) : GraphData :=
  match List.find (same_key src tgt ty) (edge_list s) with
  | Some edge =>
      let new := match properties with Some r => deref s r | None => ∅ end in
      {| data_nodes := data_nodes s; edge_list := edge_list s;
         dicts := <[ed_properties edge := new ∪ deref s (ed_properties edge)]> (dicts s);
         made := made s |}
  | None =>
      let edge_data r :=
        {| ed_source_id := src; ed_target_id := tgt; ed_relationship_type := ty;
           ed_properties := r |} in
      match properties with
      | Some r =>
          {| data_nodes := data_nodes s; edge_list := edge_list s ++ [edge_data r];
             dicts := dicts s; made := made s |}
      | None =>
          {| data_nodes := data_nodes s;
             edge_list := edge_list s ++ [edge_data (inr (made s))];
             dicts := <[inr (made s) := ∅]> (dicts s); made := S (made s) |}
      end
  end.

Definition create_file_chunk_relationship s (file_path chunk_id : string) :=
  create_relationship s file_path chunk_id "CONTAINS" None.

Definition create_function_chunk_relationship s (function_qualified_name chunk_id : string) :=
  create_relationship s function_qualified_name chunk_id "DEFINED_IN" None.

Definition create_class_chunk_relationship s (class_qualified_name chunk_id : string) :=
  create_relationship s class_qualified_name chunk_id "DEFINED_IN" None.

Definition create_function_call_relationship s (caller callee : string) :=
  create_relationship s caller callee "CALLS" None.

Definition create_class_inheritance_relationship s (child parent : string) :=
  create_relationship s child parent "INHERITS_FROM" None.

Definition create_class_method_relationship s (class_name method_name : string) :=
  create_relationship s class_name method_name "HAS_METHOD" None.

(** "Remove duplicates": the first item of each key is kept; [seen] is
    the Python [set] of keys met so far. *)
Fixpoint unique_by {A K} `{Countable K} (key : A → K) (seen : gset K) (l : list A)
  : list A :=
  match l with
  | [] => []
  | x :: l' =>
      if decide (key x ∈ seen) then unique_by key seen l'
      else x :: unique_by key ({[key x]} ∪ seen) l'
  end.

Definition default_relationship_types : list string :=
  ["CALLS"; "DEFINED_IN"; "CONTAINS"; "HAS_METHOD"; "INHERITS_FROM"].

(** The test of the loop of [find_related_chunks] on one edge. *)
Definition related (relationship_types : list string) (chunk_id : string) (e : GraphEdge)
  : bool :=
  bool_decide (relationship_type e ∈ relationship_types)
  && (String.eqb (source_id e) chunk_id || String.eqb (target_id e) chunk_id).

(** The stored nodes at the two ends of an edge, source first. *)
Definition end_nodes (s : GraphData) (e : GraphEdge) : list GraphNode :=
  omap (fun node_id => data_nodes s !! node_id) [source_id e; target_id e].

(** [find_related_chunks]: one scan over the edge list; [max_hops] only
    reaches the metadata of the result. *)
Definition find_related_chunks (s : GraphData) (chunk_id : string)
           (relationship_types : option (list string)) (max_hops : Z) : GraphResult :=
  let relationship_types :=
    match relationship_types with
    | Some tys => tys
    | None => default_relationship_types
    end in
  let found := List.filter (related relationship_types chunk_id) (data_edges s) in
  let nodes := flat_map (end_nodes s) found in
  {| nodes := unique_by node_id ∅ nodes;
     edges := unique_by edge_key ∅ found;
     graph_metadata := [("query_type", PStr "related_chunks"); ("max_hops", PInt max_hops)] |}.

(** [get_database_stats]: nodes counted by type, relationships by type. *)
Definition bump (counts : gmap string nat) (key : string) : gmap string nat :=
  <[key := S (default 0 (counts !! key))]> counts.

Definition get_database_stats (s : GraphData) : gmap string nat * gmap string nat :=
  (foldl bump ∅ (node_type <$> (map_to_list (data_nodes s)).*2),
   foldl bump ∅ (relationship_type <$> data_edges s)).

(** One call of the writing interface, and an indexing pass as the
    sequence of calls it makes. *)
Inductive call : Type :=
| CreateFileNode (file_path language file_type : string)
                 (metadata : option (gmap string pyvalue))
| CreateChunkNode (c : CodeChunk)
| CreateFunctionNode (name qualified_name file_path : string) (line : Z)
                     (metadata : gmap string pyvalue)
| CreateClassNode (name qualified_name file_path : string) (line : Z)
                  (metadata : gmap string pyvalue)
| CreateRelationship (src tgt ty : string) (properties : option ref).

Definition perform (s : GraphData) (c : call) : GraphData :=
  match c with
  | CreateFileNode p l t m => create_file_node s p l t m
  | CreateChunkNode c => create_chunk_node s c
  | CreateFunctionNode n q p l m => create_function_node s n q p l m
  | CreateClassNode n q p l m => create_class_node s n q p l m
  | CreateRelationship src tgt ty props => create_relationship s src tgt ty props
  end.

Definition indexing_pass (calls : list call) (s : GraphData) : GraphData :=
  foldl perform s calls.

(** *** A chain of calls: a -> b -> c, and an inheritance edge a -> d *)

Definition chain : GraphData :=
  let s := create_function_node _initialize_data "a" "a" "m.py" 1 ∅ in
  let s := create_function_node s "b" "b" "m.py" 5 ∅ in
  let s := create_function_node s "c" "c" "m.py" 9 ∅ in
  let s := create_class_node s "d" "d" "m.py" 13 ∅ in
  let s := create_function_call_relationship s "a" "b" in
  let s := create_function_call_relationship s "b" "c" in
  create_class_inheritance_relationship s "a" "d".

(** "Reachable within two hops via the given relationship types", edges
    followed in either direction. *)
Definition adjacent (s : GraphData) (tys : list string) (a b : string) : Prop :=
  ∃ e, e ∈ data_edges s ∧ relationship_type e ∈ tys ∧
       ((source_id e = a ∧ target_id e = b) ∨ (source_id e = b ∧ target_id e = a)).

Definition within_two_hops (s : GraphData) (tys : list string) (a b : string) : Prop :=
  adjacent s tys a b ∨ ∃ m, adjacent s tys a m ∧ adjacent s tys m b.

(** "The neighborhood contains exactly the nodes reachable within two
    hops": a stored node is in the result exactly when it is that near. *)
Definition is_two_hop_neighborhood (s : GraphData) (tys : list string)
           (chunk_id : string) (g : GraphResult) : Prop :=
  ∀ k n, data_nodes s !! k = Some n →
         (within_two_hops s tys chunk_id k ↔ n ∈ nodes g).

(** An edge the scan of [find_related_chunks] keeps. *)
Definition selected (s : GraphData) (tys : list string) (chunk_id : string)
           (e : GraphEdge) : Prop :=
  e ∈ data_edges s ∧ relationship_type e ∈ tys ∧
  (source_id e = chunk_id ∨ target_id e = chunk_id).

Definition node_written (c : call) : option (string * GraphNode) :=
  match c with
  | CreateFileNode p l t m => Some (p, file_node p l t m)
  | CreateChunkNode c => Some (chunk_id c, chunk_node c)
  | CreateFunctionNode n q p l m => Some (q, code_entity_node "Function" n q p l m)
  | CreateClassNode n q p l m => Some (q, code_entity_node "Class" n q p l m)
  | CreateRelationship _ _ _ _ => None
  end.

Definition write_node (m : gmap string GraphNode) (c : call) : gmap string GraphNode :=
  match node_written c with
  | Some (k, n) => <[k := n]> m
  | None => m
  end.

Definition key_written (c : call) : option (string * string * string) :=
  match c with
  | CreateRelationship src tgt ty _ => Some (src, tgt, ty)
  | _ => None
  end.

Definition write_key (ks : list (string * string * string)) (c : call)
  : list (string * string * string) :=
  match key_written c with
  | Some k => if bool_decide (k ∈ ks) then ks else ks ++ [k]
  | None => ks
  end.

Definition small_pass : list call :=
  [ CreateFileNode "m.py" "python" "source" None;
    CreateFunctionNode "hello" "m.py::hello" "m.py" 1 ∅;
    CreateFunctionNode "main" "m.py::main" "m.py" 4 ∅;
    CreateRelationship "m.py::main" "m.py::hello" "CALLS" None;
    CreateRelationship "m.py::main" "m.py::hello" "CALLS" None ].

(** The store after [small_pass]. *)
Definition calls_store : GraphData := indexing_pass small_pass _initialize_data.

(** *** Two edges created with one dict

    The caller builds the dicts [{w: 1}] and [{w: 2}] and creates the edges
    a -> b and a -> c, both with the first dict. *)
Definition shared_dict_store : GraphData :=
  let s := new_dict _initialize_data 0 {["w" := PInt 1]} in
  let s := new_dict s 1 {["w" := PInt 2]} in
  let s := create_relationship s "a" "b" "CALLS" (Some (inl 0)) in
  create_relationship s "a" "c" "CALLS" (Some (inl 0)).

(** *** Other queries *)

(** [find_function_dependencies] and [find_class_hierarchy] have the same
    body: the node itself, then the edges of one type that leave it and the
    stored nodes they lead to. *)
Definition outgoing (rel name : string) (e : GraphEdge) : bool :=
  String.eqb (source_id e) name && String.eqb (relationship_type e) rel.

Definition find_outgoing (rel not_found query_type : string) (s : GraphData)
           (name : string) : GraphResult :=
  match data_nodes s !! name with
  | None => {| nodes := []; edges := []; graph_metadata := [("error", PStr not_found)] |}
  | Some node =>
      let found := List.filter (outgoing rel name) (data_edges s) in
      let targets := omap (fun e => data_nodes s !! target_id e) found in
      {| nodes := unique_by node_id ∅ (node :: targets);
         edges := unique_by edge_key ∅ found;
         graph_metadata := [("query_type", PStr query_type)] |}
  end.

Definition find_function_dependencies (s : GraphData) (function_qualified_name : string)
  : GraphResult :=
  find_outgoing "CALLS" "Function not found" "function_dependencies" s
                function_qualified_name.

Definition find_class_hierarchy (s : GraphData) (class_qualified_name : string)
  : GraphResult :=
  find_outgoing "INHERITS_FROM" "Class not found" "class_hierarchy" s class_qualified_name.

(** The stored nodes at the two ends of an edge, the file itself left out. *)
Definition end_nodes_but (s : GraphData) (file_path : string) (e : GraphEdge)
  : list GraphNode :=
  omap (fun node_id => if String.eqb node_id file_path then None else data_nodes s !! node_id)
       [source_id e; target_id e].

Definition touches (ids : list string) (e : GraphEdge) : bool :=
  bool_decide (source_id e ∈ ids) || bool_decide (target_id e ∈ ids).

(** [get_file_structure]: the file node, the edges at the file with their
    end nodes, then the edges at the Chunk nodes found so far with theirs. *)
Definition get_file_structure (s : GraphData) (file_path : string) : GraphResult :=
  match data_nodes s !! file_path with
  | None => {| nodes := []; edges := [];
               graph_metadata := [("error", PStr "File not found")] |}
  | Some file_node =>
      let at_file := List.filter (touches [file_path]) (data_edges s) in
      let nodes1 := file_node :: flat_map (end_nodes_but s file_path) at_file in
      let chunk_ids :=
        node_id <$> List.filter (fun n => String.eqb (node_type n) "Chunk") nodes1 in
      let at_chunks := List.filter (touches chunk_ids) (data_edges s) in
      let nodes2 := nodes1 ++ flat_map (end_nodes_but s file_path) at_chunks in
      {| nodes := unique_by node_id ∅ nodes2;
         edges := unique_by edge_key ∅ (at_file ++ at_chunks);
         graph_metadata := [("query_type", PStr "file_structure");
                            ("file_path", PStr file_path)] |}
  end.

Definition clear_database (s : GraphData) : GraphData := _initialize_data.

(** What every store built through the writing interface satisfies: no two
    edges share a triple, and every node is stored under its own id. *)
Definition well_formed (s : GraphData) : Prop :=
  NoDup (edge_key <$> data_edges s) ∧
  map_Forall (fun key n => node_id n = key) (data_nodes s).

(** The count of [x] in a list, as the statistics report it: absent when
    zero. *)
Definition reported (l : list string) (x : string) : option nat :=
  match count_occ String.string_dec l x with
  | 0 => None
  | S n => Some (S n)
  end.

(** *** A file with one chunk that defines one function *)

Definition hello_chunk : CodeChunk :=
  {| chunk_id := "m.py#0"; chunk_file_path := "m.py"; content := "def hello(): pass";
     chunk_start_line := 1; chunk_end_line := 1; language := "python";
     chunk_type := "function"; cmetadata := ∅ |}.

Definition file_pass : list call :=
  [ CreateFileNode "m.py" "python" "source" None;
    CreateChunkNode hello_chunk;
    CreateRelationship "m.py" "m.py#0" "CONTAINS" None;
    CreateFunctionNode "hello" "m.py::hello" "m.py" 1 ∅;
    CreateRelationship "m.py::hello" "m.py#0" "DEFINED_IN" None ].

Definition file_store : GraphData := indexing_pass file_pass _initialize_data.

End JsonGraphClient.

(** ** The graph client as the search code sees it

    The client is duck typed: whatever object is passed in answers
    [find_related_chunks(chunk_id, relationship_types, max_hops)], and the
    call may raise. *)

Definition client : Type := string → option (list string) → Z → result GraphResult.

(** mcp/server.py, api_server.py and example_usage.py pass a
    [JsonGraphClient]. *)
Definition json_client (s : JsonGraphClient.GraphData) : client :=
  fun chunk_id relationship_types max_hops =>
    Ok (JsonGraphClient.find_related_chunks s chunk_id relationship_types max_hops).

(** ** The reranker: src/search/rerank_service.py, class GraphReranker *)

Module GraphReranker.

(** config.py: [rerank_threshold] defaults to 0.5. *)
Definition rerank_threshold : float := 0.5%float.

Record GraphReranker := {
  neo4j_client : client;
  threshold : float
}.

Definition __init__ (c : client) : GraphReranker :=
  {| neo4j_client := c; threshold := rerank_threshold |}.

(** *** Depth features *)

(** The targets of the edges of one type that leave [id], in edge order:
    [called_functions] and [parent_classes]. *)
Definition chain_targets (rel : string) (g : GraphResult) (id : string) : list string :=
  target_id <$>
    List.filter (fun e => String.eqb (source_id e) id && String.eqb (relationship_type e) rel)
                (edges g).

(** Both recursive helpers have the same body up to the relationship
    type.  The recursion goes one level deeper per call, so [11 -
    current_depth] levels of Rocq recursion are all the Python recursion
    can use; [depth_unfold] below shows the equation of the source. *)
Fixpoint depth_from (rel : string) (g : GraphResult) (levels : nat)
         (id : string) (current_depth : nat) : nat :=
  if 10 <? current_depth then current_depth
  else
    match levels with
    | 0 => current_depth
    | S levels' =>
        match chain_targets rel g id with
        | [] => current_depth
        | called =>
            foldl (fun max_depth next =>
                     max max_depth (depth_from rel g levels' next (S current_depth)))
                  current_depth called
        end
    end.

Definition _calculate_function_call_depth (function_id : string) (g : GraphResult)
           (current_depth : nat) : nat :=
  depth_from "CALLS" g (11 - current_depth) function_id current_depth.

Definition _calculate_class_inheritance_depth (class_id : string) (g : GraphResult)
           (current_depth : nat) : nat :=
  depth_from "INHERITS_FROM" g (11 - current_depth) class_id current_depth.

Definition _calculate_function_depth (r : SearchResult) (g : GraphResult) : nat :=
  let function_nodes :=
    List.filter (fun n => String.eqb (node_type n) "Function"
                          && negb (String.eqb (node_id n) (chunk_id (chunk r))))
                (nodes g) in
  foldl (fun max_depth n => max max_depth (_calculate_function_call_depth (node_id n) g 0))
        0 function_nodes.

Definition _calculate_class_hierarchy_depth (r : SearchResult) (g : GraphResult) : nat :=
  let class_nodes := List.filter (fun n => String.eqb (node_type n) "Class") (nodes g) in
  foldl (fun max_depth n => max max_depth (_calculate_class_inheritance_depth (node_id n) g 0))
        0 class_nodes.

(** One recursive call of the helper makes another: from [(id, depth)]
    with [depth <= 10] to each target at [depth + 1]. *)
Inductive recurses (rel : string) (g : GraphResult) : string * nat → string * nat → Prop :=
| recurses_into id d next :
    d ≤ 10 → next ∈ chain_targets rel g id → recurses rel g (id, d) (next, S d).

(** *** Blending *)

Definition _combine_scores (self : GraphReranker) (original_score graph_score : float)
  : float :=
  let '(graph_weight, original_weight) :=
    if (threshold self <? graph_score)%float
    then (0.4, 0.6)%float
    else (0.2, 0.8)%float in
  (original_score * original_weight + graph_score * graph_weight)%float.

Definition set_rank (i : nat) (r : SearchResult) : SearchResult :=
  {| chunk := chunk r; score := score r; rank := i + 1;
     search_type := search_type r; metadata := metadata r |}.

Section Rerank.
(** [_calculate_feature_score(_extract_graph_features(result, query,
    graph_result))]: the weighted average of the structural features.
    Its value does not enter the properties below; it may raise, as any
    Python call may. *)
Variable feature_score : SearchResult → string → GraphResult → result float.

Definition rerank_relationship_types : list string :=
  ["CALLS"; "DEFINED_IN"; "CONTAINS"; "HAS_METHOD"].

(** The graph query of [_calculate_graph_score]. *)
Definition neighborhood (self : GraphReranker) (r : SearchResult) : result GraphResult :=
  neo4j_client self (chunk_id (chunk r)) (Some rerank_relationship_types) 2%Z.

Definition _calculate_graph_score (self : GraphReranker) (r : SearchResult)
           (query : string) : result float :=
  catch (graph_result ← neighborhood self r;
         feature_score r query graph_result)
        (fun _ => Ok 0%float).

(** The body of the loop of [rerank_results]. *)
Definition rerank_one (self : GraphReranker) (query : string)
           (reranked_results : list SearchResult) (r : SearchResult)
  : result (list SearchResult) :=
  graph_score ← _calculate_graph_score self r query;
  let combined_score := _combine_scores self (score r) graph_score in
  Ok (reranked_results ++
        [{| chunk := chunk r; score := combined_score; rank := rank r;
            search_type := search_type r;
            metadata := <["combined_score" := PFloat combined_score]>
                          (<["graph_score" := PFloat graph_score]> (metadata r)) |}]).

(** The list after blending, sorting and ranking, before the cut. *)
Definition ranked (self : GraphReranker) (results : list SearchResult) (query : string)
  : result (list SearchResult) :=
  reranked_results ← for_each (rerank_one self query) results [];
  Ok (imap set_rank (sorted_desc score reranked_results)).

Definition rerank_results (self : GraphReranker) (results : list SearchResult)
           (query : string) (top_k : nat) : result (list SearchResult) :=
  match results with
  | [] => Ok results
  | _ :: _ =>
      reranked_results ← ranked self results query;
      Ok (take top_k reranked_results)
  end.

(** The graph score [_calculate_graph_score] settles on. *)
Definition graph_score_of (self : GraphReranker) (query : string) (r : SearchResult)
  : float :=
  match neighborhood self r with
  | Ok g => match feature_score r query g with Ok x => x | Raise _ => 0%float end
  | Raise _ => 0%float
  end.

(** What the loop of [rerank_results] makes of one result. *)
Definition blended (self : GraphReranker) (query : string) (r : SearchResult)
  : SearchResult :=
  let graph_score := graph_score_of self query r in
  let combined_score := _combine_scores self (score r) graph_score in
  {| chunk := chunk r; score := combined_score; rank := rank r;
     search_type := search_type r;
     metadata := <["combined_score" := PFloat combined_score]>
                   (<["graph_score" := PFloat graph_score]> (metadata r)) |}.

End Rerank.

(** *** A cyclic call graph: a calls b, b calls a *)

Definition call_edge (src tgt ty : string) : GraphEdge :=
  {| source_id := src; target_id := tgt; relationship_type := ty; edge_properties := ∅ |}.

Definition cycle : GraphResult :=
  {| nodes := []; graph_metadata := [];
     edges := [ call_edge "a" "b" "CALLS"; call_edge "b" "a" "CALLS";
                call_edge "A" "B" "INHERITS_FROM"; call_edge "B" "A" "INHERITS_FROM" ] |}.

(** *** Two candidates and a graph store that is down *)

Definition candidate (id : string) (s : float) (k : nat) : SearchResult :=
  {| chunk := {| chunk_id := id; chunk_file_path := "m.py"; content := "";
                 chunk_start_line := 1; chunk_end_line := 2; language := "python";
                 chunk_type := "function"; cmetadata := ∅ |};
     score := s; rank := k; search_type := "hybrid"; metadata := ∅ |}.

Definition failing_client : client := fun _ _ _ => Raise "connection refused".

(** Three candidates, the first and the last with the same score. *)
Definition tied_candidates : list SearchResult :=
  [candidate "a" 0.5 1; candidate "b" 0.9 2; candidate "c" 0.5 3].

Definition no_features : SearchResult → string → GraphResult → result float :=
  fun _ _ _ => Ok 0%float.

End GraphReranker.

(** ** Keyword and hybrid search: src/search/hybrid_search.py *)

Module HybridSearch.

(** The index object of the rank_bm25 package, as the arguments
    [BM25Search] hands to [BM25Okapi(corpus, k1=, b=)]. *)
Record BM25Okapi := {
  okapi_corpus : list (list string);
  okapi_k1 : float;
  okapi_b : float
}.

(** One entry of [BM25Search.chunk_metadata]. *)
Record ChunkMeta := {
  meta_chunk_id : string;
  meta_file_path : string;
  meta_language : string;
  meta_chunk_type : string;
  meta_start_line : Z;
  meta_end_line : Z
}.

Record BM25Search := {
  k1 : float;
  b : float;
  corpus : list (list string);
  bm25 : option BM25Okapi;
  chunk_metadata : list ChunkMeta
}.

(** [np.argsort(scores)]: the indices in ascending order of score.  Equal
    scores keep their index order here; NumPy's default sort is not
    stable and may return them in another order, and it puts NaN last,
    which the comparisons below do not.  Nothing proved of [search] below
    depends on the order of the indices. *)
Fixpoint insert_asc (scores : list float) (i : nat) (l : list nat) : list nat :=
  match l with
  | [] => [i]
  | j :: l' =>
      if (default 0 (scores !! j) <? default 0 (scores !! i))%float
      then j :: insert_asc scores i l'
      else i :: l
  end.

Definition argsort (scores : list float) : list nat :=
  foldr (insert_asc scores) [] (seq 0 (length scores)).

(** [xs[i]], which raises [IndexError] out of range. *)
Definition index {A} (xs : list A) (i : nat) : result A :=
  match xs !! i with
  | Some x => Ok x
  | None => Raise "IndexError"
  end.

Definition bm25_result (m : ChunkMeta) (s : float) (rank : nat) : SearchResult :=
  {| chunk := {| chunk_id := meta_chunk_id m; chunk_file_path := meta_file_path m;
                 content := ""; chunk_start_line := meta_start_line m;
                 chunk_end_line := meta_end_line m; language := meta_language m;
                 chunk_type := meta_chunk_type m; cmetadata := ∅ |};
     score := s; rank := rank + 1; search_type := "bm25";
     metadata := {["bm25_score" := PFloat s]} |}.

Section BM25.
(** [_preprocess_text]: lower-casing, the regular expression and the
    split.  Ranking does not look inside the tokens. *)
Variable _preprocess_text : string → list string.

(** [BM25Okapi.get_scores] of the rank_bm25 package: one score per
    document of the corpus. *)
Variable get_scores : BM25Okapi → list string → list float.

(** [BM25Search.__init__]: [k1 or settings.bm25_k1], [b or
    settings.bm25_b] with the defaults of both. *)
Definition new_BM25Search : BM25Search :=
  {| k1 := 1.2%float; b := 0.75%float; corpus := []; bm25 := None;
     chunk_metadata := [] |}.

(** [BM25Okapi.__init__] run on these arguments.  It belongs to rank_bm25
    and may raise. *)
Variable BM25Okapi_init : BM25Okapi → result unit.

(** [index_chunks]: the object after the call, and whether the call
    raised.  [corpus] and [chunk_metadata] are replaced before the index is
    built, so when the constructor raises they are the new ones and [bm25]
    is the old one. *)
Definition index_chunks (self : BM25Search) (chunks : list CodeChunk)
  : BM25Search * result unit :=
  match chunks with
  | [] => (self, Ok tt)
  | _ :: _ =>
      let corpus := (fun c => _preprocess_text (content c)) <$> chunks in
      let chunk_metadata :=
        (fun c => {| meta_chunk_id := chunk_id c;
                     meta_file_path := chunk_file_path c;
                     meta_language := language c;
                     meta_chunk_type := chunk_type c;
                     meta_start_line := chunk_start_line c;
                     meta_end_line := chunk_end_line c |}) <$> chunks in
      let okapi := {| okapi_corpus := corpus; okapi_k1 := k1 self; okapi_b := b self |} in
      match BM25Okapi_init okapi with
      | Ok _ =>
          ({| k1 := k1 self; b := b self; corpus := corpus; bm25 := Some okapi;
              chunk_metadata := chunk_metadata |}, Ok tt)
      | Raise e =>
          ({| k1 := k1 self; b := b self; corpus := corpus; bm25 := bm25 self;
              chunk_metadata := chunk_metadata |}, Raise e)
      end
  end.

(** The loop of [search] over [enumerate(top_indices)]. *)
Definition search_step (self : BM25Search) (bm25_scores : list float)
           (results : list SearchResult) (hit : nat * nat)
  : result (list SearchResult) :=
  let '(rank, idx) := hit in
  s ← index bm25_scores idx;
  if (0 <? s)%float then
    m ← index (chunk_metadata self) idx;
    Ok (results ++ [bm25_result m s rank])
  else Ok results.

Definition search (self : BM25Search) (query : string) (top_k : nat)
  : result (list SearchResult) :=
  match bm25 self with
  | None => Ok []
  | Some okapi =>
      let query_tokens := _preprocess_text query in
      let bm25_scores := get_scores okapi query_tokens in
      let top_indices := take top_k (rev (argsort bm25_scores)) in
      for_each (search_step self bm25_scores) (imap pair top_indices) []
  end.
End BM25.

(** *** Fusion *)

(** [min(scores)] and [max(scores)] of a non-empty list: the first item
    wins among equals. *)
Definition py_min (s0 : float) (rest : list float) : float :=
  foldl (fun current item => if (item <? current)%float then item else current) s0 rest.

Definition py_max (s0 : float) (rest : list float) : float :=
  foldl (fun current item => if (current <? item)%float then item else current) s0 rest.

Definition normalize_scores (scores : list float) : list float :=
  match scores with
  | [] => []
  | s0 :: rest =>
      let min_score := py_min s0 rest in
      let max_score := py_max s0 rest in
      if (max_score =? min_score)%float then replicate (length scores) 0.5%float
      else (fun s => (s - min_score) / (max_score - min_score))%float <$> scores
  end.

(** A value of [combined_dict].  The dictionary keeps insertion order,
    which the stable sort makes visible, so it is an association list. *)
Record Combined := {
  c_chunk : CodeChunk;
  vector_score : pyvalue;
  bm25_score : pyvalue;
  search_types : list string
}.

(** [norm[i] if i < len(norm) else 0]: a float of the list, or the int
    literal. *)
Definition norm_at (norm : list float) (i : nat) : pyvalue :=
  match norm !! i with
  | Some x => PFloat x
  | None => PInt 0
  end.

(** [v * w] for a score [v] of the dictionary and a float [w]: an int is
    converted to a float first. *)
Definition times (v : pyvalue) (w : float) : float :=
  match v with
  | PFloat x => (x * w)%float
  | PInt z => (PrimFloat.of_uint63 (Uint63.of_Z z) * w)%float
  | _ => (0 * w)%float
  end.

Definition add_vector (vector_norm : list float) (d : list (string * Combined))
           (entry : nat * SearchResult) : list (string * Combined) :=
  let '(i, r) := entry in
  let id := chunk_id (chunk r) in
  if bool_decide (id ∈ d.*1) then d
  else d ++ [(id, {| c_chunk := chunk r;
                     vector_score := norm_at vector_norm i;
                     bm25_score := PInt 0;
                     search_types := ["vector"] |})].

Definition set_bm25 (s : pyvalue) (c : Combined) : Combined :=
  {| c_chunk := c_chunk c; vector_score := vector_score c; bm25_score := s;
     search_types := search_types c ++ ["bm25"] |}.

Definition add_bm25 (bm25_norm : list float) (d : list (string * Combined))
           (entry : nat * SearchResult) : list (string * Combined) :=
  let '(i, r) := entry in
  let id := chunk_id (chunk r) in
  let s := norm_at bm25_norm i in
  if bool_decide (id ∈ d.*1)
  then (fun kv => if String.eqb kv.1 id then (kv.1, set_bm25 s kv.2) else kv) <$> d
  else d ++ [(id, {| c_chunk := chunk r; vector_score := PInt 0; bm25_score := s;
                     search_types := ["bm25"] |})].

Definition combined_score (vector_weight bm25_weight : float) (c : Combined) : float :=
  (times (vector_score c) vector_weight + times (bm25_score c) bm25_weight)%float.

Definition hybrid_result (vector_weight bm25_weight : float) (rank : nat)
           (kv : string * Combined) : SearchResult :=
  {| chunk := c_chunk kv.2;
     score := combined_score vector_weight bm25_weight kv.2;
     rank := rank + 1;
     search_type := "hybrid";
     metadata :=
       list_to_map [ ("vector_score", vector_score kv.2);
                     ("bm25_score", bm25_score kv.2);
                     ("search_types", PList (PStr <$> search_types kv.2)) ] |}.

Definition _combine_results (vector_results bm25_results : list SearchResult)
           (vector_weight bm25_weight : float) (top_k : nat) : list SearchResult :=
  let vector_norm := normalize_scores (score <$> vector_results) in
  let bm25_norm := normalize_scores (score <$> bm25_results) in
  let combined_dict := foldl (add_vector vector_norm) [] (imap pair vector_results) in
  let combined_dict := foldl (add_bm25 bm25_norm) combined_dict (imap pair bm25_results) in
  let sorted_results :=
    sorted_desc (fun kv => combined_score vector_weight bm25_weight kv.2) combined_dict in
  imap (hybrid_result vector_weight bm25_weight) (take top_k sorted_results).

(** The dictionary [_combine_results] builds from the two lists. *)
Definition combined_dict (vector_results bm25_results : list SearchResult)
  : list (string * Combined) :=
  foldl (add_bm25 (normalize_scores (score <$> bm25_results)))
        (foldl (add_vector (normalize_scores (score <$> vector_results))) []
               (imap pair vector_results))
        (imap pair bm25_results).

(** An entry of the dictionary after the vector loop. *)
Definition vector_only (c : Combined) : Prop :=
  (∃ x, vector_score c = PFloat x) ∧ bm25_score c = PInt 0.

(** Every entry of [combined_dict] is stored under the id of its chunk. *)
Definition keyed (d : list (string * Combined)) : Prop :=
  Forall (fun kv => chunk_id (c_chunk kv.2) = kv.1) d.

(** *** Graph context *)

Definition enhance_relationship_types : list string := ["CALLS"; "DEFINED_IN"; "CONTAINS"].

Definition graph_context (g : GraphResult) : pyvalue :=
  let related_functions :=
    List.filter (fun n => String.eqb (node_type n) "Function") (nodes g) in
  PDict ([ ("related_nodes", PInt (Z.of_nat (length (nodes g))));
           ("related_edges", PInt (Z.of_nat (length (edges g)))) ]
         ++ match related_functions with
            | [] => []
            | _ :: _ =>
                [("related_functions",
                  PList ((fun n => PDict [ ("name", PStr (node_id n));
                                           ("file_path", PStr (node_file_path n)) ])
                           <$> related_functions))]
            end).

Definition with_graph_context (r : SearchResult) (g : GraphResult) : SearchResult :=
  {| chunk := chunk r; score := score r; rank := rank r; search_type := search_type r;
     metadata := <["graph_context" := graph_context g]> (metadata r) |}.

(** [_enhance_with_graph]: the results are updated in place one after
    the other; the [try] encloses the whole loop, so when a query raises
    the results reached so far keep their context and the others stay as
    they were. *)
Fixpoint _enhance_with_graph (graph_client : client) (results : list SearchResult)
  : list SearchResult :=
  match results with
  | [] => []
  | r :: results' =>
      match graph_client (chunk_id (chunk r)) (Some enhance_relationship_types) 2%Z with
      | Ok g => with_graph_context r g :: _enhance_with_graph graph_client results'
      | Raise _ => results
      end
  end.

Section Search.
Variable _preprocess_text : string → list string.
Variable get_scores : BM25Okapi → list string → list float.

(** [embedding_service.embed_query] followed by
    [milvus_client.search_similar]. *)
Variable search_similar : string → nat → result (list SearchResult).

Record HybridSearch := {
  graph_client : client;
  bm25_search : BM25Search;
  chunk_cache : gmap string CodeChunk
}.

Definition _vector_search (self : HybridSearch) (query : string) (top_k : nat)
  : list SearchResult :=
  match search_similar query top_k with
  | Ok vector_results => vector_results
  | Raise _ => []
  end.

Definition fill_content (self : HybridSearch) (r : SearchResult) : SearchResult :=
  match chunk_cache self !! chunk_id (chunk r) with
  | Some cached_chunk =>
      {| chunk := {| chunk_id := chunk_id (chunk r);
                     chunk_file_path := chunk_file_path (chunk r);
                     content := content cached_chunk;
                     chunk_start_line := chunk_start_line (chunk r);
                     chunk_end_line := chunk_end_line (chunk r);
                     language := language (chunk r);
                     chunk_type := chunk_type (chunk r);
                     cmetadata := cmetadata cached_chunk |};
         score := score r; rank := rank r; search_type := search_type r;
         metadata := metadata r |}
  | None => r
  end.

Definition _bm25_search (self : HybridSearch) (query : string) (top_k : nat)
  : list SearchResult :=
  match search _preprocess_text get_scores (bm25_search self) query top_k with
  | Ok bm25_results => fill_content self <$> bm25_results
  | Raise _ => []
  end.

Definition search_hybrid (self : HybridSearch) (query : string) (top_k : nat)
           (vector_weight bm25_weight : float) (use_graph : bool) : list SearchResult :=
  let vector_results := _vector_search self query top_k in
  let bm25_results := _bm25_search self query top_k in
  let combined_results :=
    _combine_results vector_results bm25_results vector_weight bm25_weight top_k in
  match use_graph, combined_results with
  | true, _ :: _ => _enhance_with_graph (graph_client self) combined_results
  | _, _ => combined_results
  end.
End Search.

(** *** The fusion scenario: vector [(A,0.9),(B,0.1)], BM25 [(B,5),(A,1)] *)

Definition hit (id : string) (s : float) (k : nat) (kind : string) : SearchResult :=
  {| chunk := {| chunk_id := id; chunk_file_path := "m.py"; content := "";
                 chunk_start_line := 1; chunk_end_line := 2; language := "python";
                 chunk_type := "function"; cmetadata := ∅ |};
     score := s; rank := k; search_type := kind; metadata := ∅ |}.

(** *** A two-chunk index whose scorer gives 0.5 to the first chunk and 0
    to the second *)

Definition two_chunks : list CodeChunk :=
  [chunk (hit "hello" 0 0 ""); chunk (hit "main" 0 0 "")].

Definition fixed_scores : BM25Okapi → list string → list float :=
  fun _ _ => [0.5; 0]%float.

Definition words : string → list string := fun s => [s].

(** A scorer that gives every document of the index the score 0.5. *)
Definition even_scores : BM25Okapi → list string → list float :=
  fun okapi _ => (fun _ => 0.5%float) <$> okapi_corpus okapi.

Definition vector_AB : list SearchResult :=
  [hit "A" 0.9%float 1 "vector"; hit "B" 0.1%float 2 "vector"].

Definition bm25_BA : list SearchResult :=
  [hit "B" 5%float 1 "bm25"; hit "A" 1%float 2 "bm25"].

(** *** The two chunks of the specification's scenario under a scorer
    below zero *)

Definition hello_source : string := "def hello():" +:+ GraphBuilder.nl +:+ "    return 1".

Definition main_source : string := "def main():" +:+ GraphBuilder.nl +:+ "    hello()".

Definition hello_chunks : list CodeChunk :=
  [ {| chunk_id := "hello"; chunk_file_path := "m.py"; content := hello_source;
       chunk_start_line := 1; chunk_end_line := 2; language := "python";
       chunk_type := "function_definition"; cmetadata := ∅ |};
    {| chunk_id := "main"; chunk_file_path := "m.py"; content := main_source;
       chunk_start_line := 4; chunk_end_line := 5; language := "python";
       chunk_type := "function_definition"; cmetadata := ∅ |} ].

(** The tokens [_preprocess_text] makes of the three texts involved. *)
Definition hello_tokens (text : string) : list string :=
  if String.eqb text hello_source then ["def"; "hello"; "return"]
  else if String.eqb text main_source then ["def"; "main"; "hello"]
  else if String.eqb text "hello" then ["hello"]
  else [].

(** The scores rank_bm25's [BM25Okapi] gives the two chunks for the query
    [hello].  Both hold the term; its inverse document frequency there,
    [ln(N - df + 0.5) - ln(df + 0.5)] with [N = df = 2], is negative, and
    the package replaces a negative one by 0.25 times the mean over the
    vocabulary, which is negative on this corpus as well. *)
Definition okapi_scores : BM25Okapi → list string → list float :=
  fun _ _ => [-0.20117973905426254; -0.20117973905426254]%float.

(** A result without its metadata. *)
Definition ranking (r : SearchResult) : CodeChunk * float * nat * string :=
  (chunk r, score r, rank r, search_type r).

(** A hit of [search]: positive score, taken from the score array at the
    index of the chunk it reports. *)
Definition positive_hit (self : BM25Search) (bm25_scores : list float) (r : SearchResult)
  : Prop :=
  (0 <? score r)%float = true ∧
  ∃ idx m, bm25_scores !! idx = Some (score r) ∧
           chunk_metadata self !! idx = Some m ∧
           chunk_id (chunk r) = meta_chunk_id m.

(** *** Graph data of an indexing run

    [_create_graph_data] and [_extract_and_create_code_entities], as the
    calls they make on the graph client, in order.  On a [JsonGraphClient]
    no call raises, so none of the [try] blocks cuts the sequence short. *)

(** An entry of [files_dict]. *)
Record FileData := {
  fd_chunks : list CodeChunk;
  fd_language : string;
  fd_metadata : gmap string pyvalue
}.

(** One round of the grouping loop; [files_dict] keeps the order in which
    the paths were first met. *)
Fixpoint group_step (files_dict : list (string * FileData)) (c : CodeChunk)
  : list (string * FileData) :=
  match files_dict with
  | [] => [(chunk_file_path c,
            {| fd_chunks := [c]; fd_language := language c; fd_metadata := cmetadata c |})]
  | (file_path, file_data) :: rest =>
      if String.eqb file_path (chunk_file_path c)
      then (file_path, {| fd_chunks := fd_chunks file_data ++ [c];
                          fd_language := fd_language file_data;
                          fd_metadata := fd_metadata file_data |}) :: rest
      else (file_path, file_data) :: group_step rest c
  end.

(** [x or 'unknown'] on a string. *)
Definition or_unknown (x : string) : string :=
  if String.eqb x "" then "unknown" else x.

Definition qualified (c : CodeChunk) (name : string) : string :=
  chunk_file_path c ++ "::" ++ name.

Section GraphData.
(** [_determine_file_type], a table over [Path(file_path).suffix]. *)
Variable _determine_file_type : string → string.

(** [_extract_functions] and [_extract_classes]: the regular expressions
    over the lines of the content; each match gives a name and the index of
    its line. *)
Variable _extract_functions : string → string → list (string * nat).
Variable _extract_classes : string → string → list (string * nat).

Definition function_calls (c : CodeChunk) (func_info : string * nat)
  : list JsonGraphClient.call :=
  [ JsonGraphClient.CreateFunctionNode
      func_info.1 (qualified c func_info.1) (chunk_file_path c)
      (chunk_start_line c + Z.of_nat func_info.2) ∅;
    JsonGraphClient.CreateRelationship (qualified c func_info.1) (chunk_id c)
                                       "DEFINED_IN" None ].

Definition class_calls (c : CodeChunk) (class_info : string * nat)
  : list JsonGraphClient.call :=
  [ JsonGraphClient.CreateClassNode
      class_info.1 (qualified c class_info.1) (chunk_file_path c)
      (chunk_start_line c + Z.of_nat class_info.2) ∅;
    JsonGraphClient.CreateRelationship (qualified c class_info.1) (chunk_id c)
                                       "DEFINED_IN" None ].

Definition _extract_and_create_code_entities (c : CodeChunk) : list JsonGraphClient.call :=
  flat_map (function_calls c) (_extract_functions (content c) (language c))
  ++ flat_map (class_calls c) (_extract_classes (content c) (language c)).

Definition chunk_calls (file_path : string) (c : CodeChunk) : list JsonGraphClient.call :=
  [ JsonGraphClient.CreateChunkNode c;
    JsonGraphClient.CreateRelationship file_path (chunk_id c) "CONTAINS" None ]
  ++ _extract_and_create_code_entities c.

Definition file_calls (entry : string * FileData) : list JsonGraphClient.call :=
  let '(file_path, file_data) := entry in
  let file_size := dict_get (fd_metadata file_data) "file_size" (PInt 0) in
  JsonGraphClient.CreateFileNode file_path (or_unknown (fd_language file_data))
                                 (_determine_file_type file_path)
                                 (Some {["file_size" := file_size]})
  :: flat_map (chunk_calls file_path) (fd_chunks file_data).

Definition _create_graph_data (chunks : list CodeChunk) : list JsonGraphClient.call :=
  flat_map file_calls (foldl group_step [] chunks).
End GraphData.

(** A chunk filed under its path. *)
Definition grouped (files_dict : list (string * FileData)) (c : CodeChunk) : Prop :=
  ∃ file_data, (chunk_file_path c, file_data) ∈ files_dict ∧ c ∈ fd_chunks file_data.

End HybridSearch.


(** ** Conflict resolution: src/search/rerank_service.py, class
    ConflictResolutionReranker *)

Module ConflictResolutionReranker.

(** An entry of the list [_identify_conflicts] returns. *)
Record Conflict := {
  conflict_chunk_id : string;
  conflict_type : string;
  vector_rank : nat;
  bm25_rank : nat;
  vector_result : option SearchResult;
  bm25_result : option SearchResult
}.

(** [next((r for r in results if r.chunk.id == id), None)]. *)
Definition find_by_id (results : list SearchResult) (id : string) : option SearchResult :=
  List.find (fun r => String.eqb (chunk_id (chunk r)) id) results.

(** [next((r.rank for r in results if r.chunk.id == id), len(results))]. *)
Definition rank_by_id (results : list SearchResult) (id : string) : nat :=
  from_option rank (length results) (find_by_id results id).

(** The chunk ids of the first five results, as a set. *)
Definition top_ids (results : list SearchResult) : gset string :=
  list_to_set (ids (take 5 results)).

Definition vector_conflict (bm25_results : list SearchResult) (v_result : SearchResult)
  : Conflict :=
  {| conflict_chunk_id := chunk_id (chunk v_result);
     conflict_type := "vector_high_bm25_low";
     vector_rank := rank v_result;
     bm25_rank := rank_by_id bm25_results (chunk_id (chunk v_result));
     vector_result := Some v_result;
     bm25_result := find_by_id bm25_results (chunk_id (chunk v_result)) |}.

Definition bm25_conflict (vector_results : list SearchResult) (b_result : SearchResult)
  : Conflict :=
  {| conflict_chunk_id := chunk_id (chunk b_result);
     conflict_type := "bm25_high_vector_low";
     vector_rank := rank_by_id vector_results (chunk_id (chunk b_result));
     bm25_rank := rank b_result;
     vector_result := find_by_id vector_results (chunk_id (chunk b_result));
     bm25_result := Some b_result |}.

Definition _identify_conflicts (vector_results bm25_results : list SearchResult)
  : list Conflict :=
  let vector_top := top_ids vector_results in
  let bm25_top := top_ids bm25_results in
  (vector_conflict bm25_results
     <$> List.filter (fun v_result => bool_decide (chunk_id (chunk v_result) ∉ bm25_top))
                     (take 5 vector_results))
  ++ (bm25_conflict vector_results
        <$> List.filter (fun b_result => bool_decide (chunk_id (chunk b_result) ∉ vector_top))
                        (take 5 bm25_results)).

(** The score [_resolve_conflicts] gives a conflict of one type under one
    query type. *)
Definition resolution (query_type conflict_type : string) : float :=
  if String.eqb query_type "semantic" then
    if String.eqb conflict_type "vector_high_bm25_low" then 1.0%float else 0.7%float
  else if String.eqb query_type "keyword" then
    if String.eqb conflict_type "bm25_high_vector_low" then 1.0%float else 0.7%float
  else 0.8%float.

Section Resolve.
(** [_analyze_query_type]: counts of indicator words in the lower-cased
    query; it answers "semantic", "keyword" or "mixed". *)
Variable _analyze_query_type : string → string.

Definition resolve_step (query : string) (resolved_scores : gmap string float)
           (conflict : Conflict) : gmap string float :=
  <[conflict_chunk_id conflict :=
      resolution (_analyze_query_type query) (conflict_type conflict)]> resolved_scores.

Definition _resolve_conflicts (conflicts : list Conflict) (query : string)
  : gmap string float :=
  foldl (resolve_step query) ∅ conflicts.
End Resolve.

End ConflictResolutionReranker.

(** ** The search tool: src/mcp/server.py *)

Module McpServer.

Section SearchCode.
Variable _preprocess_text : string → list string.
Variable get_scores : HybridSearch.BM25Okapi → list string → list float.
Variable search_similar : string → nat → result (list SearchResult).
Variable feature_score : SearchResult → string → GraphResult → result float.

(** The retrieval steps of the tool [search_code]: the hybrid search with
    weights 0.6 and 0.4, then the reranker with the same [top_k] when
    reranking is asked for and there are results.  The text the tool
    formats from the results is not modelled. *)
Definition search_code_results (hybrid_search : HybridSearch.HybridSearch)
           (graph_reranker : GraphReranker.GraphReranker)
           (query : string) (top_k : nat) (use_graph use_reranking : bool)
  : result (list SearchResult) :=
  let results :=
    HybridSearch.search_hybrid _preprocess_text get_scores search_similar hybrid_search
                               query top_k 0.6%float 0.4%float use_graph in
  match use_reranking, results with
  | true, _ :: _ =>
      GraphReranker.rerank_results feature_score graph_reranker results query top_k
  | _, _ => Ok results
  end.
End SearchCode.

End McpServer.

(** * Theorems *)

(** ** GraphBuilder *)

Section GraphBuilderFacts.
Import GraphBuilder.

(** C1.  For the file with [hello()] (no calls) and [main()] calling
    [hello()], the helper [_extract_entities_and_relations] produces the
    CALLS relationship from main (node 2) to hello (node 1) once, but
    [build_graph_for_file] returns it twice: its relationship list is the
    helper's list followed by itself, and the two CALLS relationships of
    that list are both main -> hello. *)
Theorem build_graph_for_file_duplicates_calls :
  let helper := _extract_entities_and_relations hello_main 0 "example.py" 1 in
  let out := build_graph_for_file "example.py" (Some hello_main) in
  label <$> out.1 = ["File"; "Function"; "Function"] ∧
  count_occ Relationship_eq_dec helper.2 main_calls_hello = 1 ∧
  out.2 = helper.2 ++ helper.2 ∧
  count_occ Relationship_eq_dec out.2 main_calls_hello = 2 ∧
  List.filter (fun r => String.eqb (type r) "CALLS") out.2
    = [main_calls_hello; main_calls_hello].
Proof. vm_compute. done. Qed.

End GraphBuilderFacts.

(** ** JsonGraphClient *)

Section JsonGraphClientFacts.
Import JsonGraphClient.

(** *** Removing duplicates *)

Section Unique.
Context {A K : Type} `{Countable K} (key : A → K).

Lemma unique_by_elem seen l x :
  x ∈ unique_by key seen l → x ∈ l ∧ key x ∉ seen.
Proof.
  revert seen. induction l as [|y l IH]; intros seen; simpl.
  - by intros ?%elem_of_nil.
  - destruct (decide (key y ∈ seen)) as [Hy|Hy].
    + intros [? ?]%IH. split; [by right|done].
    + intros [->|[? Hx]%IH]%elem_of_cons; [split; [by left|done]|].
      split; [by right|]. set_solver.
Qed.

Lemma unique_by_keys seen l k :
  k ∈ key <$> l → k ∉ seen → k ∈ key <$> unique_by key seen l.
Proof.
  revert seen. induction l as [|y l IH]; intros seen; simpl.
  - by intros ?%elem_of_nil.
  - intros [->|Hin]%elem_of_cons Hk.
    + destruct (decide (key y ∈ seen)); [done|]. by left.
    + destruct (decide (key y ∈ seen)); [by apply IH|].
      destruct (decide (k = key y)) as [->|Hne]; [by left|].
      right. apply IH; [done|]. set_solver.
Qed.

Lemma unique_by_NoDup seen l : NoDup (key <$> unique_by key seen l).
Proof.
  revert seen. induction l as [|y l IH]; intros seen; simpl; [constructor|].
  destruct (decide (key y ∈ seen)); [apply IH|].
  simpl. constructor; [|apply IH].
  intros (x & Hx & [_ Hin]%unique_by_elem)%list_elem_of_fmap.
  rewrite Hx in Hin. set_solver.
Qed.
End Unique.

(** *** The neighborhood query *)

Lemma related_true tys chunk_id e :
  related tys chunk_id e = true ↔
  relationship_type e ∈ tys ∧ (source_id e = chunk_id ∨ target_id e = chunk_id).
Proof.
  unfold related.
  rewrite andb_true_iff, orb_true_iff, bool_decide_eq_true, !String.eqb_eq. done.
Qed.

Lemma elem_of_found s tys chunk_id e :
  e ∈ List.filter (related tys chunk_id) (data_edges s) ↔ selected s tys chunk_id e.
Proof.
  rewrite list_elem_of_In, filter_In, <- list_elem_of_In, related_true.
  unfold selected. tauto.
Qed.

Lemma elem_of_end_nodes s e n :
  n ∈ end_nodes s e ↔
  ∃ k, (k = source_id e ∨ k = target_id e) ∧ data_nodes s !! k = Some n.
Proof.
  unfold end_nodes. rewrite list_elem_of_omap. split.
  - intros (k & Hk & Hn). exists k. split; [|done].
    apply elem_of_cons in Hk as [->|Hk]; [by left|].
    apply list_elem_of_singleton in Hk as ->. by right.
  - intros (k & [->| ->] & Hn); exists (source_id e) + exists (target_id e);
      (split; [|done]); [by left|right; by left].
Qed.

(** What [find_related_chunks] returns, for any list of relationship
    types and any [max_hops]: the edges incident to the chunk whose type
    is in the list, one per triple, and the stored nodes at their ends,
    one per id. *)
Lemma find_related_chunks_direct s chunk_id tys max_hops :
  let g := find_related_chunks s chunk_id (Some tys) max_hops in
  (∀ e, e ∈ edges g → selected s tys chunk_id e) ∧
  (∀ e, selected s tys chunk_id e → edge_key e ∈ edge_key <$> edges g) ∧
  NoDup (edge_key <$> edges g) ∧
  (∀ n, n ∈ nodes g →
        ∃ e k, selected s tys chunk_id e ∧ (k = source_id e ∨ k = target_id e) ∧
               data_nodes s !! k = Some n) ∧
  (∀ e k n, selected s tys chunk_id e → (k = source_id e ∨ k = target_id e) →
            data_nodes s !! k = Some n → node_id n ∈ node_id <$> nodes g) ∧
  NoDup (node_id <$> nodes g).
Proof.
  simpl. split_and!.
  - intros e [He _]%unique_by_elem. by apply elem_of_found.
  - intros e He. apply unique_by_keys; [|set_solver].
    apply list_elem_of_fmap_2. by apply elem_of_found.
  - apply unique_by_NoDup.
  - intros n [Hn _]%unique_by_elem.
    apply list_elem_of_In, in_flat_map in Hn as (e & He & Hn).
    apply list_elem_of_In, elem_of_found in He.
    apply list_elem_of_In, elem_of_end_nodes in Hn as (k & Hk & Hn).
    by exists e, k.
  - intros e k n He Hk Hn. apply unique_by_keys; [|set_solver].
    apply list_elem_of_fmap_2, list_elem_of_In, in_flat_map.
    exists e. split; [by apply list_elem_of_In, elem_of_found|].
    apply list_elem_of_In, elem_of_end_nodes. by exists k.
  - apply unique_by_NoDup.
Qed.

Ltac elem_of_compute :=
  vm_compute;
  repeat first [ by left | right ].

Ltac not_elem_of_compute :=
  let H := fresh in
  intros H; vm_compute in H;
  repeat (apply elem_of_cons in H as [H|H]; [discriminate|]);
  by apply elem_of_nil in H.

Lemma chain_adjacent_a_b : adjacent chain default_relationship_types "a" "b".
Proof.
  exists (GraphReranker.call_edge "a" "b" "CALLS").
  split_and!; [elem_of_compute|elem_of_compute|by left].
Qed.

Lemma chain_adjacent_b_c : adjacent chain default_relationship_types "b" "c".
Proof.
  exists (GraphReranker.call_edge "b" "c" "CALLS").
  split_and!; [elem_of_compute|elem_of_compute|by left].
Qed.

Lemma chain_adjacent_a_d : adjacent chain default_relationship_types "a" "d".
Proof.
  exists (GraphReranker.call_edge "a" "d" "INHERITS_FROM").
  split_and!; [elem_of_compute|elem_of_compute|by left].
Qed.

(** C3 as stated fails.  In the store [chain] (a CALLS b, b CALLS c, a
    INHERITS_FROM d) the node c is two CALLS hops from a and the node d
    is one INHERITS_FROM hop from a, yet the neighborhood the reranker
    obtains for the candidate a holds only a and b. *)
Lemma neighborhood_misses_second_hop :
  let r := GraphReranker.candidate "a" 0.9%float 1 in
  ∃ g, GraphReranker.neighborhood (GraphReranker.__init__ (json_client chain)) r = Ok g ∧
       node_id <$> nodes g = ["a"; "b"] ∧
       is_Some (data_nodes chain !! "c") ∧
       within_two_hops chain default_relationship_types "a" "c" ∧
       is_Some (data_nodes chain !! "d") ∧
       within_two_hops chain default_relationship_types "a" "d" ∧
       ¬ is_two_hop_neighborhood chain default_relationship_types "a" g.
Proof.
  eexists. split; [reflexivity|].
  assert (within_two_hops chain default_relationship_types "a" "c") as Hc.
  { right. exists "b". split; [apply chain_adjacent_a_b|apply chain_adjacent_b_c]. }
  split_and!; try done.
  - left. apply chain_adjacent_a_d.
  - intros Hn.
    destruct (Hn "c" (code_entity_node "Function" "c" "c" "m.py" 9 ∅)) as [Hin _];
      [by vm_compute|].
    specialize (Hin Hc).
    apply (list_elem_of_fmap_2 node_id) in Hin. revert Hin. not_elem_of_compute.
Qed.

(** C3, amended.  For the candidate of a result the reranker asks the
    JSON store for the relationship types of its own list
    ([rerank_relationship_types]) with [max_hops = 2]; the store answers
    with the edges of the requested types that have the candidate's node at
    one end (one hop, whatever [max_hops] says), one per (source, target,
    type) triple, and with the stored nodes at the ends of those edges, one
    per id. *)
Theorem neighborhood_is_direct_edges (s : GraphData) (r : SearchResult) :
  let chunk_id := chunk_id (chunk r) in
  let tys := GraphReranker.rerank_relationship_types in
  ∃ g, GraphReranker.neighborhood (GraphReranker.__init__ (json_client s)) r = Ok g ∧
       (∀ max_hops, nodes (find_related_chunks s chunk_id (Some tys) max_hops) = nodes g ∧
                    edges (find_related_chunks s chunk_id (Some tys) max_hops) = edges g) ∧
       (∀ e, e ∈ edges g → selected s tys chunk_id e) ∧
       (∀ e, selected s tys chunk_id e → edge_key e ∈ edge_key <$> edges g) ∧
       NoDup (edge_key <$> edges g) ∧
       (∀ n, n ∈ nodes g →
             ∃ e k, selected s tys chunk_id e ∧ (k = source_id e ∨ k = target_id e) ∧
                    data_nodes s !! k = Some n) ∧
       (∀ e k n, selected s tys chunk_id e → (k = source_id e ∨ k = target_id e) →
                 data_nodes s !! k = Some n → node_id n ∈ node_id <$> nodes g) ∧
       NoDup (node_id <$> nodes g).
Proof.
  intros cid tys. eexists. split; [reflexivity|]. split; [done|].
  apply (find_related_chunks_direct s cid tys 2).
Qed.

(** *** Writing twice *)

Lemma same_key_true src tgt ty edge :
  same_key src tgt ty edge = true ↔ raw_key edge = (src, tgt, ty).
Proof.
  unfold same_key, raw_key. rewrite !andb_true_iff, !String.eqb_eq.
  split; [by intros [[-> ->] ->]|]. by intros [= -> -> ->].
Qed.

Lemma data_edges_keys s : edge_key <$> data_edges s = raw_key <$> edge_list s.
Proof. unfold data_edges. by rewrite <- list_fmap_compose. Qed.

(** The scan of [create_relationship] finds the first edge with the
    triple, if there is one. *)
Lemma find_same_key_spec src tgt ty es :
  match List.find (same_key src tgt ty) es with
  | Some edge =>
      ∃ i, es !! i = Some edge ∧ raw_key edge = (src, tgt, ty) ∧
           ∀ j edge', j < i → es !! j = Some edge' → raw_key edge' ≠ (src, tgt, ty)
  | None => (src, tgt, ty) ∉ raw_key <$> es
  end.
Proof.
  induction es as [|e es IH]; simpl; [by intros ?%elem_of_nil|].
  destruct (same_key src tgt ty e) eqn:E.
  - apply same_key_true in E. exists 0. split_and!; try done. lia.
  - assert (raw_key e ≠ (src, tgt, ty)) as Hne.
    { intros Hk%same_key_true. congruence. }
    destruct (List.find (same_key src tgt ty) es) as [edge|]; simpl.
    + destruct IH as (i & Hi & Hk & Hfirst).
      exists (S i). split_and!; try done.
      intros [|j] e' Hj; simpl; [by intros [= <-]|].
      apply Hfirst. lia.
    + intros [?|?]%elem_of_cons; [congruence|done].
Qed.

Lemma perform_nodes s c : data_nodes (perform s c) = write_node (data_nodes s) c.
Proof.
  destruct c; simpl; try done.
  unfold create_relationship.
  by destruct (List.find _ _), properties.
Qed.

Lemma perform_keys s c :
  edge_key <$> data_edges (perform s c) = write_key (edge_key <$> data_edges s) c.
Proof.
  rewrite !data_edges_keys. destruct c; simpl; try done.
  unfold create_relationship, write_key. simpl.
  pose proof (find_same_key_spec src tgt ty (edge_list s)) as Hspec.
  destruct (List.find _ _) as [edge|]; simpl.
  - destruct Hspec as (i & Hi & Hk & _).
    rewrite bool_decide_eq_true_2; [done|].
    rewrite <- Hk. apply list_elem_of_fmap_2. by eapply list_elem_of_lookup_2.
  - rewrite bool_decide_eq_false_2 by done. destruct properties; simpl; by rewrite fmap_app.
Qed.

Lemma indexing_pass_nodes calls s :
  data_nodes (indexing_pass calls s) = foldl write_node (data_nodes s) calls.
Proof.
  unfold indexing_pass. revert s. induction calls as [|c calls IH]; intros s; simpl; [done|].
  by rewrite IH, perform_nodes.
Qed.

Lemma indexing_pass_keys calls s :
  edge_key <$> data_edges (indexing_pass calls s)
  = foldl write_key (edge_key <$> data_edges s) calls.
Proof.
  unfold indexing_pass. revert s. induction calls as [|c calls IH]; intros s; simpl; [done|].
  by rewrite IH, perform_keys.
Qed.

(** The nodes after a pass: what the pass writes, over what was there. *)
Lemma foldl_write_node calls m :
  foldl write_node m calls = foldl write_node ∅ calls ∪ m.
Proof.
  induction calls as [|c calls IH] using rev_ind; simpl.
  - by rewrite (left_id_L ∅ (∪)).
  - rewrite !foldl_snoc, IH. unfold write_node.
    destruct (node_written c) as [[k n]|]; [|done].
    by rewrite insert_union_l.
Qed.

Lemma write_node_twice calls m :
  foldl write_node (foldl write_node m calls) calls = foldl write_node m calls.
Proof.
  rewrite (foldl_write_node calls (foldl write_node m calls)), (foldl_write_node calls m).
  by rewrite (assoc_L (∪)), (idemp_L (∪)).
Qed.

Lemma write_key_incl ks c k : k ∈ ks → k ∈ write_key ks c.
Proof.
  unfold write_key. destruct (key_written c); [|done].
  case_bool_decide; [done|]. intros ?. apply elem_of_app. by left.
Qed.

Lemma foldl_write_key_incl calls ks k : k ∈ ks → k ∈ foldl write_key ks calls.
Proof.
  revert ks. induction calls as [|c calls IH]; intros ks Hk; simpl; [done|].
  by apply IH, write_key_incl.
Qed.

Lemma foldl_write_key_written calls ks c k :
  c ∈ calls → key_written c = Some k → k ∈ foldl write_key ks calls.
Proof.
  revert ks. induction calls as [|c' calls IH]; intros ks; simpl; [by intros ?%elem_of_nil|].
  intros [->|Hc]%elem_of_cons Hk; [|by eapply IH].
  apply foldl_write_key_incl. unfold write_key. rewrite Hk.
  case_bool_decide; [done|]. apply elem_of_app. right. by left.
Qed.

Lemma foldl_write_key_present calls ks :
  (∀ c k, c ∈ calls → key_written c = Some k → k ∈ ks) →
  foldl write_key ks calls = ks.
Proof.
  induction calls as [|c calls IH]; intros Hall; simpl; [done|].
  assert (write_key ks c = ks) as ->.
  { unfold write_key. destruct (key_written c) as [k|] eqn:E; [|done].
    rewrite bool_decide_eq_true_2; [done|]. eapply Hall; [by left|done]. }
  apply IH. intros c' k Hc. apply Hall. by right.
Qed.

Lemma write_key_twice calls ks :
  foldl write_key (foldl write_key ks calls) calls = foldl write_key ks calls.
Proof.
  apply foldl_write_key_present. intros c k Hc Hk. by eapply foldl_write_key_written.
Qed.

Lemma stats_of_keys s :
  get_database_stats s
  = (foldl bump ∅ (node_type <$> (map_to_list (data_nodes s)).*2),
     foldl bump ∅ ((fun k => k.2) <$> (edge_key <$> data_edges s))).
Proof.
  unfold get_database_stats. f_equal. f_equal.
  rewrite <- list_fmap_compose. by apply list_fmap_ext.
Qed.

(** C7.  A node call whose id is already a key of the store replaces the
    node under that key: the number of nodes stays, the key now holds the
    new node, and the edges are untouched.  [create_relationship] with a
    triple the edge list already has appends nothing: the list holds the
    same entries in the same order, and the properties dict of the first
    entry with that triple is updated in place, every key of the new
    properties now holding the new value and every other key its old one.
    No other dict changes, so an edge changes exactly when it holds that
    dict.  Hence an indexing pass run on the store it has already been run
    on leaves the node counts by type and the relationship counts by type
    as they were. *)
Theorem reindexing_is_idempotent (calls : list call) (s : GraphData) :
  (∀ c k n, node_written c = Some (k, n) → is_Some (data_nodes s !! k) →
            size (data_nodes (perform s c)) = size (data_nodes s) ∧
            data_nodes (perform s c) !! k = Some n ∧
            data_edges (perform s c) = data_edges s) ∧
  (∀ src tgt ty props,
      (src, tgt, ty) ∈ edge_key <$> data_edges s →
      let s' := create_relationship s src tgt ty props in
      let new := match props with Some r => deref s r | None => ∅ end in
      length (data_edges s') = length (data_edges s) ∧
      edge_key <$> data_edges s' = edge_key <$> data_edges s ∧
      data_nodes s' = data_nodes s ∧
      edge_list s' = edge_list s ∧
      ∃ i edge,
        edge_list s !! i = Some edge ∧ raw_key edge = (src, tgt, ty) ∧
        (∀ j edge', j < i → edge_list s !! j = Some edge' →
                    raw_key edge' ≠ (src, tgt, ty)) ∧
        (∀ key, deref s' (ed_properties edge) !! key
                = match new !! key with
                  | Some v => Some v
                  | None => deref s (ed_properties edge) !! key
                  end) ∧
        (∀ r, r ≠ ed_properties edge → deref s' r = deref s r)) ∧
  get_database_stats (indexing_pass calls (indexing_pass calls s))
  = get_database_stats (indexing_pass calls s).
Proof.
  split_and!.
  - intros c k n Hc Hk. rewrite perform_nodes. unfold write_node. rewrite Hc.
    split_and!.
    + by apply map_size_insert_Some.
    + by rewrite lookup_insert_eq.
    + by destruct c.
  - intros src tgt ty props Hin s' new.
    rewrite data_edges_keys in Hin.
    pose proof (find_same_key_spec src tgt ty (edge_list s)) as Hspec.
    assert (∃ edge, List.find (same_key src tgt ty) (edge_list s) = Some edge) as [edge E].
    { destruct (List.find _ _) as [edge|]; [by exists edge|done]. }
    rewrite E in Hspec. destruct Hspec as (i & Hi & Hk & Hfirst).
    assert (edge_list s' = edge_list s) as Hlist.
    { subst s'. unfold create_relationship. by rewrite E. }
    assert (data_nodes s' = data_nodes s) as Hnodes.
    { subst s'. unfold create_relationship. by rewrite E. }
    assert (dicts s' = <[ed_properties edge := new ∪ deref s (ed_properties edge)]> (dicts s))
      as Hdicts.
    { subst s'. unfold create_relationship. by rewrite E. }
    split_and!; [| |done|done|].
    + unfold data_edges. by rewrite !length_fmap, Hlist.
    + by rewrite !data_edges_keys, Hlist.
    + exists i, edge. split_and!; [done|done|done| |].
      * intros key. unfold deref at 1. rewrite Hdicts, lookup_insert_eq. simpl.
        rewrite lookup_union.
        by destruct (new !! key), (deref s (ed_properties edge) !! key).
      * intros r Hr. unfold deref. by rewrite Hdicts, lookup_insert_ne.
  - rewrite !stats_of_keys, !indexing_pass_nodes, !indexing_pass_keys.
    by rewrite write_node_twice, write_key_twice.
Qed.

Lemma reindexing_is_idempotent_witness :
  let s := shared_dict_store in
  let s' := create_relationship s "a" "b" "CALLS" (Some (inl 1)) in
  ("a", "b", "CALLS") ∈ edge_key <$> data_edges s ∧
  length (data_edges s') = length (data_edges s) ∧
  edge_properties <$> data_edges s = [{["w" := PInt 1]}; {["w" := PInt 1]}] ∧
  edge_properties <$> data_edges s' = [{["w" := PInt 2]}; {["w" := PInt 2]}] ∧
  size (data_nodes (perform calls_store
                            (CreateFunctionNode "hello" "m.py::hello" "m.py" 1 ∅)))
  = size (data_nodes calls_store) ∧
  get_database_stats (indexing_pass small_pass calls_store) = get_database_stats calls_store.
Proof.
  intros s s'.
  assert (("a", "b", "CALLS") ∈ edge_key <$> data_edges s) as Hin by (vm_compute; by left).
  destruct (reindexing_is_idempotent small_pass s) as (_ & Hedge & _).
  destruct (Hedge "a" "b" "CALLS" (Some (inl 1)) Hin) as (Hlen & _).
  destruct (reindexing_is_idempotent small_pass calls_store) as (Hnode & _ & _).
  split_and!.
  - exact Hin.
  - exact Hlen.
  - by vm_compute.
  - by vm_compute.
  - refine (proj1 (Hnode (CreateFunctionNode "hello" "m.py::hello" "m.py" 1 ∅)
                         "m.py::hello" _ eq_refl _)).
    vm_compute. by eexists.
  - apply (proj2 (proj2 (reindexing_is_idempotent small_pass _initialize_data))).
Defined.

End JsonGraphClientFacts.

(** ** Floats and sorting *)

Lemma SFmul_comm prec emax x y :
  SpecFloat.SFmul prec emax x y = SpecFloat.SFmul prec emax y x.
Proof.
  destruct x as [sx|sx| |sx mx ex], y as [sy|sy| |sy my ey]; simpl; try reflexivity;
    rewrite (xorb_comm sx sy); try reflexivity.
  by rewrite (Pos.mul_comm mx my), (Z.add_comm ex ey).
Qed.

(** IEEE multiplication commutes. *)
Lemma float_mul_comm (x y : float) : (x * y = y * x)%float.
Proof.
  rewrite <- (FloatAxioms.SF2Prim_Prim2SF (x * y)), <- (FloatAxioms.SF2Prim_Prim2SF (y * x)).
  rewrite !FloatAxioms.mul_spec. f_equal. apply SFmul_comm.
Qed.

Section SortingFacts.
Context {A : Type} (key : A → float).

Lemma insert_desc_perm x l : insert_desc key x l ≡ₚ x :: l.
Proof.
  induction l as [|y l IH]; simpl; [done|].
  destruct (key x <? key y)%float; [|done].
  rewrite IH. apply Permutation_swap.
Qed.

Lemma sorted_desc_perm l : sorted_desc key l ≡ₚ l.
Proof.
  induction l as [|x l IH]; simpl; [done|].
  by rewrite insert_desc_perm, IH.
Qed.
End SortingFacts.

(** ** GraphReranker *)

Section GraphRerankerFacts.
Import GraphReranker.

(** C5.  The blended score is [0.6*c + 0.4*g] when the graph score [g] is
    strictly greater than the reranker's threshold and [0.8*c + 0.2*g]
    otherwise, in binary64 arithmetic; a reranker built by [__init__] has
    the configured default threshold, 0.5. *)
Theorem combine_scores_blend (self : GraphReranker) (c g : float) :
  _combine_scores self c g
  = (if threshold self <? g then 0.6 * c + 0.4 * g else 0.8 * c + 0.2 * g)%float
  ∧ ∀ cl, threshold (__init__ cl) = 0.5%float.
Proof.
  split; [|done]. unfold _combine_scores.
  destruct (threshold self <? g)%float;
    by rewrite (float_mul_comm c), (float_mul_comm g).
Qed.

(** *** Depth of call and inheritance chains *)

Lemma foldl_max_le {B} (f : B → nat) (bound start : nat) (l : list B) :
  start ≤ bound → (∀ x, x ∈ l → f x ≤ bound) →
  foldl (fun m x => max m (f x)) start l ≤ bound.
Proof.
  revert start. induction l as [|x l IH]; intros start Hs Hl; simpl; [done|].
  apply IH.
  - apply Nat.max_lub; [done|]. apply Hl. by left.
  - intros y Hy. apply Hl. by right.
Qed.

Lemma depth_from_cap rel g levels id d : 10 < d → depth_from rel g levels id d = d.
Proof.
  intros Hd. destruct levels; simpl; by rewrite (proj2 (Nat.ltb_lt 10 d) Hd).
Qed.

Lemma depth_from_le rel g levels id d : depth_from rel g levels id d ≤ max d 11.
Proof.
  revert id d. induction levels as [|levels IH]; intros id d; simpl.
  - destruct (10 <? d); lia.
  - destruct (Nat.ltb_spec 10 d) as [Hd|Hd]; [lia|].
    destruct (chain_targets rel g id) as [|next called] eqn:E; [lia|].
    apply foldl_max_le.
    + apply Nat.max_lub; [lia|]. etrans; [apply IH|]. lia.
    + intros x _. etrans; [apply IH|]. lia.
Qed.

(** The equation of the source: the cap, the loop that collects the
    targets, and the maximum over the recursive calls one level deeper. *)
Lemma depth_unfold rel g id d :
  depth_from rel g (11 - d) id d
  = if 10 <? d then d
    else match chain_targets rel g id with
         | [] => d
         | called =>
             foldl (fun max_depth next =>
                      max max_depth (depth_from rel g (11 - S d) next (S d)))
                   d called
         end.
Proof.
  destruct (Nat.ltb_spec 10 d) as [Hd|Hd].
  - by apply depth_from_cap.
  - replace (11 - d) with (S (10 - d)) by lia.
    replace (11 - S d) with (10 - d) by lia.
    simpl. by rewrite (proj2 (Nat.ltb_ge 10 d) Hd).
Qed.

(** No infinite chain of recursive calls: each call is one level deeper
    than its caller and no call is made from a level above 10. *)
Lemma recursion_well_founded rel g :
  well_founded (fun callee caller => recurses rel g caller callee).
Proof.
  apply (well_founded_lt_compat _ (fun p => 12 - p.2)).
  intros callee caller Hr. destruct Hr as [id d next Hd _]. simpl. lia.
Qed.

Lemma recursion_depth_le rel g p q :
  rtc (recurses rel g) p q → p.2 ≤ 11 → q.2 ≤ 11.
Proof.
  induction 1 as [|p q r Hstep _ IH]; [done|].
  intros _. apply IH. destruct Hstep. simpl. lia.
Qed.

(** C8.  [_calculate_function_call_depth] and
    [_calculate_class_inheritance_depth] satisfy the recursive equations
    of the source; on every query result, cyclic or not, the relation "this
    call makes that call" is well founded, so the recursion terminates; no
    call is reached with a depth above 11 and a call whose depth exceeds 10
    returns at once; started at depth 0 the result is at most 11, and on
    the cycle a -> b -> a it is 11. *)
Theorem depth_traversal_terminates (g : GraphResult) (id : string) :
  (∀ d, _calculate_function_call_depth id g d
        = if 10 <? d then d
          else match chain_targets "CALLS" g id with
               | [] => d
               | called =>
                   foldl (fun max_depth next =>
                            max max_depth (_calculate_function_call_depth next g (S d)))
                         d called
               end) ∧
  (∀ d, _calculate_class_inheritance_depth id g d
        = if 10 <? d then d
          else match chain_targets "INHERITS_FROM" g id with
               | [] => d
               | parents =>
                   foldl (fun max_depth next =>
                            max max_depth (_calculate_class_inheritance_depth next g (S d)))
                         d parents
               end) ∧
  well_founded (fun callee caller => recurses "CALLS" g caller callee) ∧
  well_founded (fun callee caller => recurses "INHERITS_FROM" g caller callee) ∧
  (∀ rel id' d', rtc (recurses rel g) (id, 0) (id', d') → d' ≤ 11) ∧
  (∀ d, 10 < d → _calculate_function_call_depth id g d = d
                 ∧ _calculate_class_inheritance_depth id g d = d) ∧
  _calculate_function_call_depth id g 0 ≤ 11 ∧
  _calculate_class_inheritance_depth id g 0 ≤ 11 ∧
  _calculate_function_call_depth "a" cycle 0 = 11 ∧
  _calculate_class_inheritance_depth "A" cycle 0 = 11.
Proof.
  split_and!.
  - intros d. apply depth_unfold.
  - intros d. apply depth_unfold.
  - apply recursion_well_founded.
  - apply recursion_well_founded.
  - intros rel id' d' Hrtc. apply (recursion_depth_le _ _ _ _ Hrtc). simpl. lia.
  - intros d Hd. split; by apply depth_from_cap.
  - apply (depth_from_le "CALLS" g 11 id 0).
  - apply (depth_from_le "INHERITS_FROM" g 11 id 0).
  - by vm_compute.
  - by vm_compute.
Qed.

(** *** Reranking when graph queries fail *)

Section RerankFacts.
Variable feature_score : SearchResult → string → GraphResult → result float.
Variable self : GraphReranker.
Variable query : string.

Lemma graph_score_total r :
  _calculate_graph_score feature_score self r query
  = Ok (graph_score_of feature_score self query r).
Proof.
  unfold _calculate_graph_score, graph_score_of, catch, mbind, result_bind, bind.
  destruct (neighborhood self r) as [g|]; [|done].
  by destruct (feature_score r query g).
Qed.

Lemma graph_score_failed r msg :
  neighborhood self r = Raise msg → graph_score_of feature_score self query r = 0%float.
Proof. unfold graph_score_of. by intros ->. Qed.

Lemma rerank_one_eq acc r :
  rerank_one feature_score self query acc r = Ok (acc ++ [blended feature_score self query r]).
Proof. unfold rerank_one. by rewrite graph_score_total. Qed.

Lemma for_each_rerank_one results acc :
  for_each (rerank_one feature_score self query) results acc
  = Ok (acc ++ (blended feature_score self query <$> results)).
Proof.
  revert acc. induction results as [|r results IH]; intros acc; cbn [for_each fmap list_fmap].
  - by rewrite app_nil_r.
  - rewrite rerank_one_eq. unfold mbind, result_bind, bind. rewrite IH.
    by rewrite <- app_assoc.
Qed.

Lemma ranked_eq results :
  ranked feature_score self results query
  = Ok (imap set_rank (sorted_desc score (blended feature_score self query <$> results))).
Proof.
  unfold ranked. rewrite for_each_rerank_one. done.
Qed.

Lemma blended_in_ranked results r :
  r ∈ results →
  ∃ i, set_rank i (blended feature_score self query r)
         ∈ imap set_rank (sorted_desc score (blended feature_score self query <$> results)).
Proof.
  intros Hr.
  assert (blended feature_score self query r
            ∈ sorted_desc score (blended feature_score self query <$> results)) as Hin.
  { rewrite sorted_desc_perm. by apply list_elem_of_fmap_2. }
  apply list_elem_of_lookup in Hin as [i Hi].
  exists i. apply list_elem_of_lookup. exists i.
  by rewrite list_lookup_imap, Hi.
Qed.
End RerankFacts.

(** C6 as stated fails in one respect: the list [rerank_results] returns
    is cut to its first [top_k] entries, so a candidate whose query raised
    is absent from it when it ranks below the cut.  Here the graph client
    raises for every candidate; of two candidates and [top_k = 1] only the
    first comes back. *)
Lemma failed_candidate_below_cut :
  let self := __init__ failing_client in
  let y := candidate "y" 0.8%float 2 in
  let results := [candidate "x" 0.9%float 1; y] in
  (∃ msg, neighborhood self y = Raise msg) ∧
  _calculate_graph_score no_features self y "q" = Ok 0%float ∧
  ∃ out, rerank_results no_features self results "q" 1 = Ok out ∧
         (fun r => chunk_id (chunk r)) <$> out = ["x"] ∧
         Forall (fun r => chunk r ≠ chunk y) out.
Proof.
  split_and!.
  - by eexists.
  - done.
  - eexists. split; [reflexivity|]. split; [by vm_compute|].
    vm_compute. constructor; [|constructor]. discriminate.
Qed.

(** C6, amended.  [rerank_results] never raises, whatever the graph client
    and the feature computation do.  Each candidate gets a graph score,
    which is 0.0 when its neighborhood query raised; each candidate is in
    the re-ranked list with that graph score recorded and its score
    blended from it; the returned list is the first [top_k] entries of the
    re-ranked list, so the candidate is in it whenever there are no more
    than [top_k] candidates. *)
Theorem rerank_survives_query_failure
        (feature_score : SearchResult → string → GraphResult → result float)
        (self : GraphReranker) (results : list SearchResult) (query : string) (top_k : nat) :
  ∃ full,
    ranked feature_score self results query = Ok full ∧
    rerank_results feature_score self results query top_k = Ok (take top_k full) ∧
    length full = length results ∧
    ∀ r, r ∈ results →
         ∃ g r', _calculate_graph_score feature_score self r query = Ok g ∧
                 ((∃ msg, neighborhood self r = Raise msg) → g = 0%float) ∧
                 r' ∈ full ∧ chunk r' = chunk r ∧
                 metadata r' !! "graph_score" = Some (PFloat g) ∧
                 score r' = _combine_scores self (score r) g ∧
                 (length results ≤ top_k → r' ∈ take top_k full).
Proof.
  eexists. split; [apply ranked_eq|]. split_and!.
  - unfold rerank_results. destruct results as [|r0 rs]; [by destruct top_k|].
    by rewrite ranked_eq.
  - by rewrite length_imap, sorted_desc_perm, length_fmap.
  - intros r Hr.
    destruct (blended_in_ranked feature_score self query results r Hr) as [i Hi].
    exists (graph_score_of feature_score self query r),
           (set_rank i (blended feature_score self query r)).
    split_and!; try done.
    + apply graph_score_total.
    + intros [msg Hmsg]. by eapply graph_score_failed.
    + simpl. rewrite lookup_insert_ne by done. by rewrite lookup_insert_eq.
    + intros Hle. rewrite take_ge; [done|].
      rewrite length_imap, sorted_desc_perm, length_fmap. done.
Qed.

Lemma rerank_survives_query_failure_witness :
  let self := __init__ failing_client in
  let y := candidate "y" 0.8%float 2 in
  let results := [candidate "x" 0.9%float 1; y] in
  ∃ out, rerank_results no_features self results "q" 2 = Ok out ∧
         ∃ r', r' ∈ out ∧ chunk r' = chunk y ∧
               metadata r' !! "graph_score" = Some (PFloat 0%float).
Proof.
  intros self y results.
  destruct (rerank_survives_query_failure no_features self results "q" 2)
    as (full & _ & Hout & _ & Hall).
  exists (take 2 full). split; [done|].
  destruct (Hall y) as (g & r' & Hg & _ & _ & Hc & Hm & _ & Hin).
  { right. by left. }
  exists r'. split_and!; [by apply Hin|done|].
  rewrite Hm. by injection Hg as <-.
Defined.

End GraphRerankerFacts.

(** ** HybridSearch *)

Section HybridSearchFacts.
Import HybridSearch.

(** C2.  Fusing the vector list [(A,0.9),(B,0.1)] with weight 0.6 and the
    BM25 list [(B,5),(A,1)] with weight 0.4: both lists normalize to 1 and
    0, A gets 1*0.6 + 0*0.4 = 0.6 and rank 1, B gets 0*0.6 + 1*0.4 = 0.4 and
    rank 2, in binary64 arithmetic. *)
Theorem fusion_ranks_A_before_B :
  normalize_scores (score <$> vector_AB) = [1; 0]%float ∧
  normalize_scores (score <$> bm25_BA) = [1; 0]%float ∧
  (0.6 * 1.0 + 0.4 * 0.0 = 0.6)%float ∧
  (0.6 * 0.0 + 0.4 * 1.0 = 0.4)%float ∧
  (fun r => (chunk_id (chunk r), score r, rank r))
    <$> _combine_results vector_AB bm25_BA 0.6%float 0.4%float 10
  = [("A", 0.6%float, 1); ("B", 0.4%float, 2)].
Proof. by vm_compute. Qed.

(** *** Graph context leaves the ranking alone *)

Lemma enhance_ranking (graph_client : client) (results : list SearchResult) :
  ranking <$> _enhance_with_graph graph_client results = ranking <$> results.
Proof.
  induction results as [|r results IH]; [done|]. cbn [_enhance_with_graph].
  destruct (graph_client _ _ _) as [g|]; [|done].
  rewrite !fmap_cons. by rewrite IH.
Qed.

Lemma enhance_metadata (graph_client : client) (results : list SearchResult) :
  Forall2 (fun r' r => metadata r' = metadata r ∨
                       ∃ g, metadata r' = <["graph_context" := graph_context g]> (metadata r))
          (_enhance_with_graph graph_client results) results.
Proof.
  induction results as [|r results IH]; [constructor|]. cbn [_enhance_with_graph].
  destruct (graph_client _ _ _) as [g|].
  - constructor; [|done]. right. by exists g.
  - apply Forall2_same_length_lookup_2; [done|].
    intros i x y Hx Hy. left. congruence.
Qed.

(** C10.  With and without [use_graph], [search] returns the same chunks
    with the same scores, ranks and search types in the same order, for
    every query, index, cache, weights and graph client, a client that
    raises included; the results differ at most by a [graph_context] entry
    in their metadata. *)
Theorem graph_context_keeps_ranking
        (_preprocess_text : string → list string)
        (get_scores : BM25Okapi → list string → list float)
        (search_similar : string → nat → result (list SearchResult))
        (self : HybridSearch) (query : string) (top_k : nat)
        (vector_weight bm25_weight : float) :
  let search := search_hybrid _preprocess_text get_scores search_similar self query top_k
                              vector_weight bm25_weight in
  ranking <$> search true = ranking <$> search false ∧
  Forall2 (fun r' r => metadata r' = metadata r ∨
                       ∃ g, metadata r' = <["graph_context" := graph_context g]> (metadata r))
          (search true) (search false).
Proof.
  intros search. subst search. unfold search_hybrid. simpl.
  destruct (_combine_results _ _ _ _ _) as [|r results] eqn:E.
  - split; [done|constructor].
  - split; [apply enhance_ranking|apply enhance_metadata].
Qed.

(** *** Keyword search *)

Lemma for_each_inv {A S} (P : S → Prop) (body : S → A → result S) xs s s' :
  (∀ s x s', P s → body s x = Ok s' → P s') →
  P s → for_each body xs s = Ok s' → P s'.
Proof.
  intros Hbody. revert s. induction xs as [|x xs IH]; intros s Hs; simpl.
  - by intros [= <-].
  - unfold mbind, result_bind, bind.
    destruct (body s x) as [s1|] eqn:E; [|done]. apply IH. by eapply Hbody.
Qed.

Lemma for_each_ok {A S} (body : S → A → result S) xs s :
  (∀ s x, x ∈ xs → ∃ s', body s x = Ok s') → ∃ s', for_each body xs s = Ok s'.
Proof.
  revert s. induction xs as [|x xs IH]; intros s Hbody; simpl; [by eexists|].
  destruct (Hbody s x) as [s1 ->]; [by left|].
  unfold mbind, result_bind, bind. apply IH. intros s2 y Hy. apply Hbody. by right.
Qed.

Lemma index_ok {A} (xs : list A) i : i < length xs → ∃ x, index xs i = Ok x.
Proof.
  intros Hi. unfold index. destruct (lookup_lt_is_Some_2 xs i Hi) as [x ->]. by eexists.
Qed.

Lemma insert_asc_perm scores i l : insert_asc scores i l ≡ₚ i :: l.
Proof.
  induction l as [|j l IH]; simpl; [done|].
  destruct (_ <? _)%float; [|done]. rewrite IH. apply Permutation_swap.
Qed.

Lemma argsort_perm scores : argsort scores ≡ₚ seq 0 (length scores).
Proof.
  unfold argsort. induction (seq 0 (length scores)) as [|i l IH]; simpl; [done|].
  by rewrite insert_asc_perm, IH.
Qed.

Lemma index_chunks_built _preprocess_text BM25Okapi_init self chunks :
  let self' := (index_chunks _preprocess_text BM25Okapi_init self chunks).1 in
  bm25 self' = bm25 self ∨
  ∃ okapi, bm25 self' = Some okapi ∧
           length (chunk_metadata self') = length (okapi_corpus okapi).
Proof.
  destruct chunks as [|c chunks]; simpl; [by left|].
  destruct (BM25Okapi_init _); simpl; [|by left].
  right. eexists. split; [reflexivity|]. simpl. by rewrite !length_fmap.
Qed.

Lemma search_step_positive self bm25_scores results hit results' :
  Forall (positive_hit self bm25_scores) results →
  search_step self bm25_scores results hit = Ok results' →
  Forall (positive_hit self bm25_scores) results'.
Proof.
  intros Hall. destruct hit as [rank idx]. unfold search_step, index.
  unfold mbind, result_bind, bind.
  destruct (bm25_scores !! idx) as [s|] eqn:Es; [|done].
  destruct (0 <? s)%float eqn:Epos; [|by intros [= <-]].
  destruct (chunk_metadata self !! idx) as [m|] eqn:Em; [|done].
  intros [= <-]. apply Forall_app. split; [done|].
  constructor; [|constructor]. split; [done|]. by exists idx, m.
Qed.


(** C9 as stated fails in its second half: on the two chunks of the
    specification's scenario, indexed without error, both documents hold
    the query term [hello], the scorer gives both a score below 0, and
    [search] returns neither. *)
Lemma term_documents_score_below_zero :
  let self := (index_chunks hello_tokens (fun _ => Ok tt) new_BM25Search hello_chunks).1 in
  ∃ okapi,
    bm25 self = Some okapi ∧
    Forall (fun d => "hello" ∈ d) (okapi_corpus okapi) ∧
    Forall (fun s => (s <? 0)%float = true) (okapi_scores okapi (hello_tokens "hello")) ∧
    length (okapi_scores okapi (hello_tokens "hello")) = length (okapi_corpus okapi) ∧
    search hello_tokens okapi_scores self "hello" 10 = Ok [].
Proof.
  eexists. split; [reflexivity|]. split_and!.
  - repeat constructor; set_solver.
  - by repeat constructor.
  - reflexivity.
  - by vm_compute.
Qed.

(** C9, amended.  Every result [BM25Search.search] returns has a strictly
    positive score, the score the scorer gave the chunk it reports:
    documents whose score is not above 0 are left out, whether or not they
    hold a query term.  After [index_chunks] on a new object, whether or
    not the constructor of the index raised, [search] returns, the scorer
    giving one score per document. *)
Theorem bm25_results_positive
        (_preprocess_text : string → list string)
        (get_scores : BM25Okapi → list string → list float)
        (BM25Okapi_init : BM25Okapi → result unit)
        (self : BM25Search) (query : string) (top_k : nat) :
  (∀ out, search _preprocess_text get_scores self query top_k = Ok out →
          ∀ r, r ∈ out →
               (0 <? score r)%float = true ∧
               ∃ okapi idx m,
                 bm25 self = Some okapi ∧
                 get_scores okapi (_preprocess_text query) !! idx = Some (score r) ∧
                 chunk_metadata self !! idx = Some m ∧
                 chunk_id (chunk r) = meta_chunk_id m) ∧
  (∀ chunks,
      (∀ okapi tokens, length (get_scores okapi tokens) = length (okapi_corpus okapi)) →
      ∃ out, search _preprocess_text get_scores
                    (index_chunks _preprocess_text BM25Okapi_init new_BM25Search chunks).1
                    query top_k
             = Ok out).
Proof.
  split_and!.
  - intros out Hout r Hr. unfold search in Hout.
    destruct (bm25 self) as [okapi|] eqn:Eb.
    + apply (for_each_inv
               (Forall (positive_hit self (get_scores okapi (_preprocess_text query)))))
        in Hout.
      * rewrite Forall_forall in Hout. destruct (Hout r Hr) as [Hpos (idx & m & ?)].
        split; [done|]. by exists okapi, idx, m.
      * intros s x s' Hs Hstep. by eapply search_step_positive.
      * constructor.
    + injection Hout as <-. by apply elem_of_nil in Hr.
  - intros chunks Hlen.
    destruct (index_chunks_built _preprocess_text BM25Okapi_init new_BM25Search chunks)
      as [Hb|(okapi & Hb & Hl)]; unfold search; rewrite Hb; [by eexists|].
    set (self' := (index_chunks _ _ _ _).1) in *.
    set (scores := get_scores okapi (_preprocess_text query)).
    apply for_each_ok. intros results [rank idx] Hhit.
    apply list_elem_of_lookup in Hhit as [i Hhit].
    rewrite list_lookup_imap in Hhit.
    destruct (take top_k (rev (argsort scores)) !! i) as [idx'|] eqn:Ei; [|done].
    injection Hhit as <- <-.
    assert (idx' < length scores) as Hidx.
    { apply list_elem_of_lookup_2 in Ei.
      apply (subseteq_take top_k) in Ei.
      apply list_elem_of_In, in_rev, list_elem_of_In in Ei.
      rewrite argsort_perm in Ei. apply list_elem_of_In, in_seq in Ei. lia. }
    unfold search_step, mbind, result_bind, bind.
    destruct (index_ok scores idx' Hidx) as [x ->].
    destruct (0 <? x)%float; [|by eexists].
    destruct (index_ok (chunk_metadata self') idx') as [m ->]; [|by eexists].
    rewrite Hl. subst scores. by rewrite Hlen in Hidx.
Qed.

Lemma bm25_results_positive_witness :
  (∃ out r, search words fixed_scores
                   (index_chunks words (fun _ => Ok tt) new_BM25Search two_chunks).1
                   "hello" 10 = Ok out ∧
            r ∈ out ∧ chunk_id (chunk r) = "hello" ∧ (0 <? score r)%float = true) ∧
  (∃ out, search words even_scores
                 (index_chunks words (fun _ => Ok tt) new_BM25Search two_chunks).1
                 "hello" 10 = Ok out) ∧
  (∃ out, search words even_scores
                 (index_chunks words (fun _ => Raise "ZeroDivisionError")
                               new_BM25Search two_chunks).1
                 "hello" 10 = Ok out).
Proof.
  split_and!.
  - pose proof (proj1 (bm25_results_positive
                         words fixed_scores (fun _ => Ok tt)
                         (index_chunks words (fun _ => Ok tt) new_BM25Search two_chunks).1
                         "hello" 10)) as Hpos.
    eexists _, (bm25_result {| meta_chunk_id := "hello"; meta_file_path := "m.py";
                               meta_language := "python"; meta_chunk_type := "function";
                               meta_start_line := 1; meta_end_line := 2 |} 0.5%float 0).
    split; [reflexivity|].
    assert (bm25_result {| meta_chunk_id := "hello"; meta_file_path := "m.py";
                           meta_language := "python"; meta_chunk_type := "function";
                           meta_start_line := 1; meta_end_line := 2 |} 0.5%float 0
              ∈ [bm25_result {| meta_chunk_id := "hello"; meta_file_path := "m.py";
                                meta_language := "python"; meta_chunk_type := "function";
                                meta_start_line := 1; meta_end_line := 2 |} 0.5%float 0])
      as Hin by by left.
    split; [exact Hin|]. split; [done|].
    exact (proj1 (Hpos _ eq_refl _ Hin)).
  - apply (proj2 (bm25_results_positive words even_scores (fun _ => Ok tt)
                                        new_BM25Search "hello" 10)).
    intros okapi tokens. unfold even_scores. by rewrite length_fmap.
  - apply (proj2 (bm25_results_positive words even_scores
                                        (fun _ => Raise "ZeroDivisionError")
                                        new_BM25Search "hello" 10)).
    intros okapi tokens. unfold even_scores. by rewrite length_fmap.
Defined.

End HybridSearchFacts.

(** * Further properties of the code *)

(** ** The order of binary64 numbers *)

Lemma SFcompare_Lt_asym x y :
  SpecFloat.SFcompare x y = Some Lt → SpecFloat.SFcompare y x = Some Gt.
Proof.
  destruct x as [sx|sx| |sx mx ex], y as [sy|sy| |sy my ey]; simpl;
    try destruct sx; try destruct sy; try done.
  - destruct (Z.compare_spec ex ey) as [->|Hlt|Hgt]; try done.
    + rewrite Z.compare_refl.
      pose proof (Pos.compare_cont_antisym mx my Eq) as Ha. simpl in Ha.
      rewrite <- Ha. by destruct (Pos.compare_cont Eq mx my).
    + intros _. by rewrite (proj2 (Z.compare_lt_iff ey ex)) by lia.
  - destruct (Z.compare_spec ex ey) as [->|Hlt|Hgt]; try done.
    + rewrite Z.compare_refl.
      pose proof (Pos.compare_cont_antisym mx my Eq) as Ha. simpl in Ha.
      rewrite <- Ha. by destruct (Pos.compare_cont Eq mx my).
    + intros _. by rewrite (proj2 (Z.compare_gt_iff ey ex)) by lia.
Qed.

(** [<] on floats is asymmetric, NaN included. *)
Lemma float_ltb_asym (x y : float) : (x <? y)%float = true → (y <? x)%float = false.
Proof.
  rewrite !FloatAxioms.ltb_spec. unfold SpecFloat.SFltb.
  destruct (SpecFloat.SFcompare (Prim2SF x) (Prim2SF y)) as [[]|] eqn:E; try done.
  intros _. by rewrite (SFcompare_Lt_asym _ _ E).
Qed.

Lemma float_ltb_irrefl (x : float) : (x <? x)%float = false.
Proof.
  destruct (x <? x)%float eqn:E; [|done].
  by rewrite (float_ltb_asym _ _ E) in E.
Qed.

(** ** Sorted lists *)

Section DescendingFacts.
Context {A : Type} (key : A → float).

Lemma descending_nil : descending key [].
Proof. by intros i x y ?. Qed.

Lemma descending_cons x l :
  descending key (x :: l) ↔
  (∀ y, head l = Some y → (key x <? key y)%float = false) ∧ descending key l.
Proof.
  split.
  - intros H. split.
    + intros y Hy. apply (H 0 x y); [done|]. by destruct l; simplify_eq/=.
    + intros i a b Ha Hb. by apply (H (S i) a b).
  - intros [Hhead Htail] [|i] a b Ha Hb; simplify_eq/=.
    + apply Hhead. by destruct l; simplify_eq/=.
    + by apply (Htail i a b).
Qed.

Lemma insert_desc_head x l y :
  head (insert_desc key x l) = Some y → y = x ∨ head l = Some y.
Proof.
  destruct l as [|z l]; simpl; [intros [= <-]; by left|].
  destruct (key x <? key z)%float; simpl; intros [= <-]; [by right|by left].
Qed.

Lemma insert_desc_descending x l :
  descending key l → descending key (insert_desc key x l).
Proof.
  induction l as [|z l IH]; simpl; intros Hl.
  - apply descending_cons. split; [done|apply descending_nil].
  - destruct (key x <? key z)%float eqn:E.
    + apply descending_cons in Hl as [Hhead Htail].
      apply descending_cons. split; [|by apply IH].
      intros y [->|Hy]%insert_desc_head; [by apply float_ltb_asym|by apply Hhead].
    + apply descending_cons. split; [|done]. by intros y [= <-].
Qed.

Lemma sorted_desc_descending l : descending key (sorted_desc key l).
Proof.
  induction l as [|x l IH]; simpl; [apply descending_nil|].
  by apply insert_desc_descending.
Qed.

Lemma descending_take n l : descending key l → descending key (take n l).
Proof.
  intros H i x y Hx Hy.
  apply lookup_take_Some in Hx as [Hx _]. apply lookup_take_Some in Hy as [Hy _].
  by apply (H i x y).
Qed.

(** Items with the same key leave [sorted_desc] in the order they came in:
    the sort is stable. *)
Lemma insert_desc_filter (P : A → bool) x l :
  (∀ y, P y = true → P x = true → (key x <? key y)%float = false) →
  List.filter P (insert_desc key x l) = List.filter P (x :: l).
Proof.
  intros Htie. induction l as [|z l IH]; [done|]. simpl.
  destruct (key x <? key z)%float eqn:E; [|done].
  assert (P z = true → P x = true → False) as Hno.
  { intros Ez Ex. by rewrite (Htie z Ez Ex) in E. }
  simpl. simpl in IH. rewrite IH.
  destruct (P z), (P x); try done. by destruct Hno.
Qed.
End DescendingFacts.

Section StableFacts.
Context {A : Type} (key : A → float).

Lemma sorted_desc_stable (v : float) (l : list A) :
  List.filter (fun x => bool_decide (key x = v)) (sorted_desc key l)
  = List.filter (fun x => bool_decide (key x = v)) l.
Proof.
  induction l as [|x l IH]; [done|].
  cbn [sorted_desc foldr]. fold (sorted_desc key l).
  rewrite insert_desc_filter.
  - simpl. by rewrite IH.
  - intros y Hy%bool_decide_eq_true Hx%bool_decide_eq_true.
    rewrite Hx, Hy. apply float_ltb_irrefl.
Qed.
End StableFacts.

(** ** More on the reranker *)

Section RerankOrderFacts.
Import GraphReranker.

Lemma rank_imap_set_rank (l : list SearchResult) :
  rank <$> imap set_rank l = seq 1 (length l).
Proof.
  apply list_eq. intros i.
  rewrite list_lookup_fmap, list_lookup_imap.
  destruct (l !! i) as [x|] eqn:E; simpl.
  - rewrite lookup_seq_lt by by eapply lookup_lt_Some. f_equal. lia.
  - rewrite lookup_seq_ge; [done|]. by apply lookup_ge_None.
Qed.

Lemma descending_imap_set_rank (l : list SearchResult) :
  descending score l → descending score (imap set_rank l).
Proof.
  intros H i x y. rewrite !list_lookup_imap.
  destruct (l !! i) as [a|] eqn:Ea; [|done].
  destruct (l !! S i) as [b|] eqn:Eb; [|done].
  intros [= <-] [= <-]. simpl. by apply (H i a b).
Qed.



Lemma filter_imap_ranks (f : nat → SearchResult → SearchResult) (v : float)
      (l : list SearchResult) :
  (∀ i r, score (f i r) = score r ∧ chunk (f i r) = chunk r) →
  chunk <$> List.filter (fun r => bool_decide (score r = v)) (imap f l)
  = chunk <$> List.filter (fun r => bool_decide (score r = v)) l.
Proof.
  revert f. induction l as [|x l IH]; intros f Hf; [done|].
  cbn [imap List.filter]. destruct (Hf 0 x) as [-> Hc].
  destruct (bool_decide (score x = v)).
  - rewrite !fmap_cons, Hc. f_equal. apply IH. intros i r. apply Hf.
  - apply IH. intros i r. apply Hf.
Qed.

(** X2.  When no blended score is NaN, candidates whose blended scores
    are the same number leave [rerank_results] in the order they came in.
    (With a NaN among the scores Python's sort may return them in another
    order.) *)
Theorem rerank_ties_keep_input_order
        (feature_score : SearchResult → string → GraphResult → result float)
        (self : GraphReranker) (results : list SearchResult) (query : string) (v : float) :
  Forall (fun r => not_nan (score (blended feature_score self query r))) results →
  ∃ full, ranked feature_score self results query = Ok full ∧
          chunk <$> List.filter (fun r => bool_decide (score r = v)) full
          = chunk <$> List.filter (fun r => bool_decide (score r = v))
                                  (blended feature_score self query <$> results).
Proof.
  intros _. eexists. split; [apply ranked_eq|].
  rewrite (filter_imap_ranks set_rank v) by by intros i r.
  by rewrite sorted_desc_stable.
Qed.

Lemma rerank_ties_keep_input_order_witness :
  let self := __init__ failing_client in
  let v := score (blended no_features self "q" (candidate "a" 0.5 1)) in
  Forall (fun r => not_nan (score (blended no_features self "q" r))) tied_candidates ∧
  ∃ full, ranked no_features self tied_candidates "q" = Ok full ∧
          chunk_id <$> (chunk <$> List.filter (fun r => bool_decide (score r = v)) full)
          = ["a"; "c"].
Proof.
  intros self v.
  assert (Forall (fun r => not_nan (score (blended no_features self "q" r)))
                 tied_candidates) as Hnan by (repeat constructor).
  split; [exact Hnan|].
  destruct (rerank_ties_keep_input_order no_features self tied_candidates "q" v Hnan)
    as (full & Hfull & Hties).
  exists full. split; [exact Hfull|]. rewrite Hties. by vm_compute.
Defined.

(** *** Depth features *)

Lemma filter_none {B} (f : B → bool) (l : list B) :
  (∀ x, x ∈ l → f x = false) → List.filter f l = [].
Proof.
  induction l as [|x l IH]; intros H; simpl; [done|].
  rewrite (H x) by by left. apply IH. intros y Hy. apply H. by right.
Qed.

Lemma foldl_max_ge_start {B} (f : B → nat) (start : nat) (l : list B) :
  start ≤ foldl (fun m x => max m (f x)) start l.
Proof.
  revert start. induction l as [|x l IH]; intros start; simpl; [done|].
  etrans; [|apply IH]. lia.
Qed.

Lemma foldl_max_ge_elem {B} (f : B → nat) (start : nat) (l : list B) x :
  x ∈ l → f x ≤ foldl (fun m x => max m (f x)) start l.
Proof.
  revert start. induction l as [|y l IH]; intros start; [by intros ?%elem_of_nil|].
  intros [->|Hx]%elem_of_cons; simpl.
  - etrans; [|apply foldl_max_ge_start]. lia.
  - by apply IH.
Qed.

Lemma foldl_max_zero {B} (f : B → nat) (l : list B) :
  foldl (fun m x => max m (f x)) 0 l = 0 ↔ ∀ x, x ∈ l → f x = 0.
Proof.
  split.
  - intros H x Hx. pose proof (foldl_max_ge_elem f 0 l x Hx). lia.
  - intros H. apply Nat.le_0_r. apply foldl_max_le; [done|].
    intros x Hx. by rewrite H.
Qed.

Lemma depth_from_ge rel g levels id d : d ≤ depth_from rel g levels id d.
Proof.
  destruct levels as [|levels]; simpl.
  - by destruct (10 <? d).
  - destruct (10 <? d); [done|].
    destruct (chain_targets rel g id) as [|next called]; [done|].
    apply (foldl_max_ge_start (fun next => depth_from rel g levels next (S d)) d
                              (next :: called)).
Qed.

(** A chain depth started at 0 is 0 exactly when no edge of the type
    leaves the node. *)
Lemma depth_from_zero rel g id :
  depth_from rel g 11 id 0 = 0 ↔ chain_targets rel g id = [].
Proof.
  change (depth_from rel g 11 id 0) with
    (match chain_targets rel g id with
     | [] => 0
     | called => foldl (fun m next => max m (depth_from rel g 10 next 1)) 0 called
     end).
  destruct (chain_targets rel g id) as [|next called]; [done|].
  split; [|done]. intros H.
  change (foldl (fun m next => max m (depth_from rel g 10 next 1)) 0 (next :: called) = 0)
    in H.
  assert (1 ≤ foldl (fun m next => max m (depth_from rel g 10 next 1)) 0 (next :: called));
    [|lia].
  etrans; [apply (depth_from_ge rel g 10 next 1)|].
  apply (foldl_max_ge_elem (fun next => depth_from rel g 10 next 1)). by left.
Qed.

Lemma function_depth_zero_iff (r : SearchResult) (g : GraphResult) :
  _calculate_function_depth r g = 0 ↔
  ∀ n, n ∈ nodes g → node_type n = "Function" → node_id n ≠ chunk_id (chunk r) →
       chain_targets "CALLS" g (node_id n) = [].
Proof.
  unfold _calculate_function_depth. rewrite foldl_max_zero. split.
  - intros H n Hn Hty Hid. apply depth_from_zero. apply H.
    apply list_elem_of_In, filter_In. split; [by apply list_elem_of_In|].
    apply andb_true_iff. split; [by apply String.eqb_eq|].
    apply negb_true_iff. by apply String.eqb_neq.
  - intros H n [Hn [Hty Hid]%andb_true_iff]%list_elem_of_In%filter_In.
    apply depth_from_zero, H; [by apply list_elem_of_In|by apply String.eqb_eq|].
    apply negb_true_iff in Hid. by apply String.eqb_neq.
Qed.

Lemma class_hierarchy_depth_zero_iff (r : SearchResult) (g : GraphResult) :
  _calculate_class_hierarchy_depth r g = 0 ↔
  ∀ n, n ∈ nodes g → node_type n = "Class" →
       chain_targets "INHERITS_FROM" g (node_id n) = [].
Proof.
  unfold _calculate_class_hierarchy_depth. rewrite foldl_max_zero. split.
  - intros H n Hn Hty. apply depth_from_zero. apply H.
    apply list_elem_of_In, filter_In. split; [by apply list_elem_of_In|].
    by apply String.eqb_eq.
  - intros H n [Hn Hty]%list_elem_of_In%filter_In.
    apply depth_from_zero, H; [by apply list_elem_of_In|by apply String.eqb_eq].
Qed.

(** X3.  The two depth features never exceed 11, and each is 0 exactly when no
    node it starts from has an outgoing edge of its type: Function nodes
    other than the candidate itself and CALLS edges for the call depth,
    Class nodes and INHERITS_FROM edges for the hierarchy depth. *)
Theorem depth_features_bounded (r : SearchResult) (g : GraphResult) :
  _calculate_function_depth r g ≤ 11 ∧
  _calculate_class_hierarchy_depth r g ≤ 11 ∧
  (_calculate_function_depth r g = 0 ↔
   ∀ n, n ∈ nodes g → node_type n = "Function" → node_id n ≠ chunk_id (chunk r) →
        chain_targets "CALLS" g (node_id n) = []) ∧
  (_calculate_class_hierarchy_depth r g = 0 ↔
   ∀ n, n ∈ nodes g → node_type n = "Class" →
        chain_targets "INHERITS_FROM" g (node_id n) = []).
Proof.
  split_and!.
  - apply foldl_max_le; [lia|]. intros n _. apply (depth_from_le "CALLS" g 11 _ 0).
  - apply foldl_max_le; [lia|]. intros n _. apply (depth_from_le "INHERITS_FROM" g 11 _ 0).
  - apply function_depth_zero_iff.
  - apply class_hierarchy_depth_zero_iff.
Qed.

(** X4.  With the JSON store behind it, the neighborhood the reranker works on
    has no INHERITS_FROM edge, whatever the store holds: the type is not
    among those the reranker requests.  The hierarchy depth computed from
    that neighborhood is therefore always 0. *)
Theorem inheritance_depth_zero_on_json_store (s : JsonGraphClient.GraphData)
        (r : SearchResult) :
  ∃ g, neighborhood (__init__ (json_client s)) r = Ok g ∧
       (∀ e, e ∈ edges g → relationship_type e ≠ "INHERITS_FROM") ∧
       _calculate_class_hierarchy_depth r g = 0.
Proof.
  eexists. split; [reflexivity|].
  assert (∀ e, e ∈ edges (JsonGraphClient.find_related_chunks
                            s (chunk_id (chunk r)) (Some rerank_relationship_types) 2) →
               relationship_type e ≠ "INHERITS_FROM") as Hno.
  { intros e He Hty.
    destruct (find_related_chunks_direct s (chunk_id (chunk r))
                                         rerank_relationship_types 2) as (Hsel & _).
    destruct (Hsel e He) as (_ & Hin & _). rewrite Hty in Hin.
    unfold rerank_relationship_types in Hin.
    repeat (apply elem_of_cons in Hin as [Hin|Hin]; [discriminate|]).
    by apply elem_of_nil in Hin. }
  split; [done|].
  apply class_hierarchy_depth_zero_iff. intros n _ _.
  unfold chain_targets.
  match goal with |- _ <$> ?l = [] => assert (l = []) as ->; [|done] end.
  apply filter_none. intros e He.
  apply andb_false_iff. right. apply String.eqb_neq. by apply Hno.
Qed.

End RerankOrderFacts.

(** ** More on score fusion *)

Section FusionFacts.
Import HybridSearch.

Lemma add_vector_keys vn d i r :
  (add_vector vn d (i, r)).*1
  = if bool_decide (chunk_id (chunk r) ∈ d.*1) then d.*1 else d.*1 ++ [chunk_id (chunk r)].
Proof.
  unfold add_vector. case_bool_decide; [done|]. by rewrite fmap_app.
Qed.

Lemma add_bm25_keys bn d i r :
  (add_bm25 bn d (i, r)).*1
  = if bool_decide (chunk_id (chunk r) ∈ d.*1) then d.*1 else d.*1 ++ [chunk_id (chunk r)].
Proof.
  unfold add_bm25. case_bool_decide; [|by rewrite fmap_app].
  rewrite <- list_fmap_compose. apply list_fmap_ext. intros j [k c] _. simpl.
  by destruct (String.eqb k _).
Qed.

Lemma keys_step_NoDup (ks : list string) (k : string) :
  NoDup ks → NoDup (if bool_decide (k ∈ ks) then ks else ks ++ [k]).
Proof.
  intros H. case_bool_decide; [done|].
  apply NoDup_app. split_and!; [done| |apply NoDup_singleton].
  intros x Hx ->%list_elem_of_singleton. done.
Qed.

Lemma keys_step_elem (ks : list string) (k x : string) :
  x ∈ (if bool_decide (k ∈ ks) then ks else ks ++ [k]) ↔ x ∈ ks ∨ x = k.
Proof.
  case_bool_decide.
  - split; [by left|]. by intros [?| ->].
  - rewrite elem_of_app, list_elem_of_singleton. done.
Qed.

Lemma add_vector_keyed vn d e : keyed d → keyed (add_vector vn d e).
Proof.
  destruct e as [i r]. unfold add_vector, keyed. case_bool_decide; [done|].
  intros Hd. apply Forall_app. split; [done|]. by constructor.
Qed.

Lemma add_bm25_keyed bn d e : keyed d → keyed (add_bm25 bn d e).
Proof.
  destruct e as [i r]. unfold add_bm25, keyed. case_bool_decide.
  - intros Hd. apply Forall_fmap. eapply Forall_impl; [exact Hd|].
    intros [k c] Hk. simpl in *. by destruct (String.eqb k _).
  - intros Hd. apply Forall_app. split; [done|]. by constructor.
Qed.

Lemma foldl_add_vector_keys vn entries d :
  NoDup d.*1 → keyed d →
  let d' := foldl (add_vector vn) d entries in
  NoDup d'.*1 ∧ keyed d' ∧
  ∀ x, x ∈ d'.*1 ↔ x ∈ d.*1 ∨ x ∈ ids entries.*2.
Proof.
  revert d. induction entries as [|[i r] entries IH]; intros d Hnd Hk; simpl.
  - split_and!; try done. intros x. split; [by left|]. by intros [?|?%elem_of_nil].
  - destruct (IH (add_vector vn d (i, r))) as (Hnd' & Hk' & Hel).
    + rewrite add_vector_keys. by apply keys_step_NoDup.
    + by apply add_vector_keyed.
    + split_and!; try done. intros x. rewrite Hel, add_vector_keys, keys_step_elem.
      unfold ids. simpl. rewrite elem_of_cons. tauto.
Qed.

Lemma foldl_add_bm25_keys bn entries d :
  NoDup d.*1 → keyed d →
  let d' := foldl (add_bm25 bn) d entries in
  NoDup d'.*1 ∧ keyed d' ∧
  ∀ x, x ∈ d'.*1 ↔ x ∈ d.*1 ∨ x ∈ ids entries.*2.
Proof.
  revert d. induction entries as [|[i r] entries IH]; intros d Hnd Hk; simpl.
  - split_and!; try done. intros x. split; [by left|]. by intros [?|?%elem_of_nil].
  - destruct (IH (add_bm25 bn d (i, r))) as (Hnd' & Hk' & Hel).
    + rewrite add_bm25_keys. by apply keys_step_NoDup.
    + by apply add_bm25_keyed.
    + split_and!; try done. intros x. rewrite Hel, add_bm25_keys, keys_step_elem.
      unfold ids. simpl. rewrite elem_of_cons. tauto.
Qed.

Lemma imap_pair_snd {B} (l : list B) : (imap pair l).*2 = l.
Proof.
  apply list_eq. intros i. rewrite list_lookup_fmap, list_lookup_imap.
  by destruct (l !! i).
Qed.

Lemma combined_dict_keys vr br :
  NoDup (combined_dict vr br).*1 ∧ keyed (combined_dict vr br) ∧
  ∀ x, x ∈ (combined_dict vr br).*1 ↔ x ∈ ids vr ∨ x ∈ ids br.
Proof.
  unfold combined_dict.
  destruct (foldl_add_vector_keys (normalize_scores (score <$> vr)) (imap pair vr) [])
    as (Hnd & Hk & Hel); [constructor|constructor|].
  destruct (foldl_add_bm25_keys (normalize_scores (score <$> br)) (imap pair br) _ Hnd Hk)
    as (Hnd' & Hk' & Hel').
  split_and!; try done. intros x. rewrite Hel', Hel, !imap_pair_snd.
  split; [intros [[?%elem_of_nil|?]|?]|]; tauto.
Qed.

Lemma combine_results_eq vr br wv wb k :
  _combine_results vr br wv wb k
  = imap (hybrid_result wv wb)
         (take k (sorted_desc (fun kv => combined_score wv wb kv.2) (combined_dict vr br))).
Proof. done. Qed.

Lemma ids_imap_hybrid wv wb (l : list (string * Combined)) :
  keyed l → ids (imap (hybrid_result wv wb) l) = l.*1.
Proof.
  intros Hk. apply list_eq. intros i. unfold ids.
  rewrite !list_lookup_fmap, list_lookup_imap.
  destruct (l !! i) as [kv|] eqn:E; [|done]. simpl. f_equal.
  unfold keyed in Hk. rewrite Forall_forall in Hk.
  apply Hk. by eapply list_elem_of_lookup_2.
Qed.

Lemma rank_imap_hybrid wv wb (l : list (string * Combined)) :
  rank <$> imap (hybrid_result wv wb) l = seq 1 (length l).
Proof.
  apply list_eq. intros i.
  rewrite list_lookup_fmap, list_lookup_imap.
  destruct (l !! i) as [x|] eqn:E; simpl.
  - rewrite lookup_seq_lt by by eapply lookup_lt_Some. f_equal. lia.
  - rewrite lookup_seq_ge; [done|]. by apply lookup_ge_None.
Qed.

Lemma descending_imap_hybrid wv wb (l : list (string * Combined)) :
  descending (fun kv => combined_score wv wb kv.2) l →
  descending score (imap (hybrid_result wv wb) l).
Proof.
  intros H i x y. rewrite !list_lookup_imap.
  destruct (l !! i) as [a|] eqn:Ea; [|done].
  destruct (l !! S i) as [b|] eqn:Eb; [|done].
  intros [= <-] [= <-]. simpl. by apply (H i a b).
Qed.

Lemma combined_dict_length vr br :
  length (combined_dict vr br) ≤ length vr + length br.
Proof.
  destruct (combined_dict_keys vr br) as (Hnd & _ & Hel).
  rewrite <- (length_fmap fst), <- (length_fmap (fun r => chunk_id (chunk r)) vr),
    <- (length_fmap (fun r => chunk_id (chunk r)) br), <- length_app.
  apply submseteq_length, NoDup_submseteq; [done|].
  intros x Hx. apply elem_of_app. by apply Hel.
Qed.

(** X5.  The fused list has each chunk id once, at most [top_k] results ranked
    1, 2, ... in list order, and no result directly followed by one with
    a strictly greater combined score.  Every id in it comes from one of
    the two input lists, and when the two lists together have no more than
    [top_k] results every input id is in it. *)
Theorem combine_results_candidates (vector_results bm25_results : list SearchResult)
        (vector_weight bm25_weight : float) (top_k : nat) :
  let out := _combine_results vector_results bm25_results vector_weight bm25_weight top_k in
  NoDup (ids out) ∧
  length out ≤ top_k ∧
  rank <$> out = seq 1 (length out) ∧
  descending score out ∧
  Forall (fun x => x ∈ ids vector_results ∨ x ∈ ids bm25_results) (ids out) ∧
  (length vector_results + length bm25_results ≤ top_k →
   Forall (fun x => x ∈ ids out) (ids vector_results ++ ids bm25_results)).
Proof.
  intros out. subst out. rewrite combine_results_eq.
  destruct (combined_dict_keys vector_results bm25_results) as (Hnd & Hk & Hel).
  set (key := fun kv : string * Combined => combined_score vector_weight bm25_weight kv.2).
  set (d := combined_dict vector_results bm25_results) in *.
  assert (keyed (take top_k (sorted_desc key d))) as Hk'.
  { unfold keyed. apply Forall_take. by rewrite sorted_desc_perm. }
  rewrite (ids_imap_hybrid _ _ _ Hk').
  split_and!.
  - rewrite fmap_take. eapply sublist_NoDup; [|apply sublist_take].
    by rewrite sorted_desc_perm.
  - rewrite length_imap, length_take. lia.
  - by rewrite rank_imap_hybrid, length_imap.
  - apply descending_imap_hybrid, descending_take, sorted_desc_descending.
  - apply Forall_forall. intros x Hx. apply Hel.
    rewrite fmap_take in Hx. apply subseteq_take in Hx.
    by rewrite sorted_desc_perm in Hx.
  - intros Hlen. apply Forall_forall. intros x Hx.
    rewrite take_ge.
    + rewrite sorted_desc_perm. apply Hel. by apply elem_of_app.
    + rewrite sorted_desc_perm.
      pose proof (combined_dict_length vector_results bm25_results). subst d. lia.
Qed.

Lemma combine_results_candidates_witness :
  Forall (fun x => x ∈ ids (_combine_results vector_AB bm25_BA 0.6%float 0.4%float 10))
         (ids vector_AB ++ ids bm25_BA).
Proof.
  apply (proj2 (proj2 (proj2 (proj2 (proj2
           (combine_results_candidates vector_AB bm25_BA 0.6%float 0.4%float 10)))))).
  simpl. lia.
Defined.

(** *** Candidates of one list only *)

Lemma times_zero (w : float) : times (PInt 0) w = (0 * w)%float.
Proof. reflexivity. Qed.

Lemma norm_at_float norm i : i < length norm → ∃ x, norm_at norm i = PFloat x.
Proof.
  intros Hi. unfold norm_at. destruct (lookup_lt_is_Some_2 norm i Hi) as [x ->]. by exists x.
Qed.

Lemma normalize_scores_length scores : length (normalize_scores scores) = length scores.
Proof.
  destruct scores as [|s0 rest]; [done|]. unfold normalize_scores.
  destruct (_ =? _)%float; by rewrite ?length_replicate, ?length_fmap.
Qed.

Lemma imap_pair_index {B} (l : list B) : Forall (fun e => e.1 < length l) (imap pair l).
Proof.
  apply Forall_forall. intros [i x] (j & y & [= -> ->] & Hy)%elem_of_lookup_imap.
  simpl. by eapply lookup_lt_Some.
Qed.

Lemma foldl_add_vector_only vn entries d :
  Forall (fun e => e.1 < length vn) entries →
  Forall (fun kv => vector_only kv.2) d →
  Forall (fun kv => vector_only kv.2) (foldl (add_vector vn) d entries).
Proof.
  revert d. induction entries as [|[i r] entries IH]; intros d Hi Hd; simpl; [done|].
  apply Forall_cons in Hi as [Hi His]. apply IH; [done|].
  unfold add_vector. case_bool_decide; [done|].
  apply Forall_app. split; [done|]. constructor; [|done].
  split; [by apply norm_at_float|done].
Qed.

Lemma add_bm25_entry bn d i r k c :
  i < length bn →
  (k, c) ∈ add_bm25 bn d (i, r) →
  (k ≠ chunk_id (chunk r) → (k, c) ∈ d) ∧
  (k = chunk_id (chunk r) → ∃ y, bm25_score c = PFloat y) ∧
  ((∃ c0, (k, c0) ∈ d ∧ vector_score c = vector_score c0)
   ∨ ((k ∉ d.*1) ∧ vector_score c = PInt 0)).
Proof.
  intros Hi. destruct (norm_at_float bn i Hi) as [y Hy].
  unfold add_bm25. case_bool_decide as Hin.
  - intros ([k0 c0] & Heq & Hc0)%list_elem_of_fmap. simpl in Heq.
    destruct (String.eqb k0 (chunk_id (chunk r))) eqn:E.
    + injection Heq as -> ->. apply String.eqb_eq in E. split_and!; [done| |].
      * intros _. exists y. done.
      * left. by exists c0.
    + injection Heq as -> ->. apply String.eqb_neq in E.
      split_and!; [done|done|]. left. by exists c0.
  - intros [Hd|Hnew%list_elem_of_singleton]%elem_of_app.
    + split_and!; [done| |].
      * intros ->. destruct Hin. by apply (list_elem_of_fmap_2 fst) in Hd.
      * left. by exists c.
    + injection Hnew as -> ->. split_and!; [done| |by right].
      intros _. by exists y.
Qed.

Lemma foldl_add_bm25_entry bn entries d k c :
  Forall (fun e => e.1 < length bn) entries →
  (k, c) ∈ foldl (add_bm25 bn) d entries →
  (k ∉ ids entries.*2 → (k, c) ∈ d) ∧
  (k ∈ ids entries.*2 → ∃ y, bm25_score c = PFloat y) ∧
  ((∃ c0, (k, c0) ∈ d ∧ vector_score c = vector_score c0)
   ∨ ((k ∉ d.*1) ∧ vector_score c = PInt 0)).
Proof.
  revert d. induction entries as [|[i r] entries IH]; intros d Hi; cbn [foldl].
  - intros H. split_and!; [done|by intros ?%elem_of_nil|]. left. by exists c.
  - apply Forall_cons in Hi as [Hi His]. simpl in Hi.
    intros H. destruct (IH _ His H) as (Hkeep & Hfloat & Hvs). split_and!.
    + intros Hk. unfold ids in Hk. simpl in Hk. apply not_elem_of_cons in Hk as [Hne Hk].
      by apply (add_bm25_entry bn d i r k c Hi); [apply Hkeep|].
    + intros Hk. destruct (decide (k ∈ ids entries.*2)) as [Hin|Hout]; [by apply Hfloat|].
      unfold ids in Hk. simpl in Hk. apply elem_of_cons in Hk as [Hk|Hk]; [|done].
      by apply (add_bm25_entry bn d i r k c Hi (Hkeep Hout)).
    + destruct Hvs as [(c1 & Hc1 & ->)|[Hk ->]].
      * apply (add_bm25_entry bn d i r k c1 Hi Hc1).
      * right. split; [|done]. intros Hd. apply Hk.
        rewrite add_bm25_keys. apply keys_step_elem. by left.
Qed.

Lemma combined_dict_entry vr br k c :
  (k, c) ∈ combined_dict vr br →
  (if bool_decide (k ∈ ids vr) then ∃ x, vector_score c = PFloat x
   else vector_score c = PInt 0) ∧
  (if bool_decide (k ∈ ids br) then ∃ y, bm25_score c = PFloat y
   else bm25_score c = PInt 0).
Proof.
  unfold combined_dict. intros H.
  set (vn := normalize_scores (score <$> vr)) in *.
  set (bn := normalize_scores (score <$> br)) in *.
  assert (Forall (fun e => e.1 < length vn) (imap pair vr)) as Hvi.
  { subst vn. rewrite normalize_scores_length, length_fmap. apply imap_pair_index. }
  assert (Forall (fun e => e.1 < length bn) (imap pair br)) as Hbi.
  { subst bn. rewrite normalize_scores_length, length_fmap. apply imap_pair_index. }
  apply (foldl_add_bm25_entry bn _ _ _ _ Hbi) in H as (Hkeep & Hfloat & Hvs).
  rewrite imap_pair_snd in Hkeep, Hfloat.
  destruct (foldl_add_vector_keys vn (imap pair vr) []) as (_ & _ & Hel);
    [constructor|constructor|].
  rewrite imap_pair_snd in Hel.
  pose proof (foldl_add_vector_only vn (imap pair vr) [] Hvi (Forall_nil_2 _)) as Hv.
  rewrite Forall_forall in Hv.
  split.
  - case_bool_decide as Hk.
    + destruct Hvs as [(c0 & Hc0 & ->)|[Hout _]]; [by apply (Hv (k, c0) Hc0)|].
      destruct Hout. apply Hel. by right.
    + destruct Hvs as [(c0 & Hc0 & _)|[_ ->]]; [|done].
      destruct Hk. apply (list_elem_of_fmap_2 fst) in Hc0. simpl in Hc0.
      apply Hel in Hc0 as [?%elem_of_nil|?]; done.
  - case_bool_decide as Hk; [by apply Hfloat|].
    by apply (Hv (k, c)), Hkeep.
Qed.

(** X6.  Every fused result records in its metadata the two scores it was
    blended from: the normalized score, a float, for a list its chunk is
    in, and the integer 0 for a list its chunk is not in.  Its score is
    the first times [vector_weight] plus the second times [bm25_weight],
    the integer counting as 0.0. *)
Theorem fusion_missing_side_is_zero (vector_results bm25_results : list SearchResult)
        (vector_weight bm25_weight : float) (top_k : nat) :
  Forall (fun r =>
            let id := chunk_id (chunk r) in
            ∃ vs bs,
              metadata r !! "vector_score" = Some vs ∧
              metadata r !! "bm25_score" = Some bs ∧
              match vs, bs with
              | PFloat x, PFloat y =>
                  id ∈ ids vector_results ∧ id ∈ ids bm25_results ∧
                  score r = (x * vector_weight + y * bm25_weight)%float
              | PFloat x, PInt 0 =>
                  id ∈ ids vector_results ∧ (id ∉ ids bm25_results) ∧
                  score r = (x * vector_weight + 0 * bm25_weight)%float
              | PInt 0, PFloat y =>
                  (id ∉ ids vector_results) ∧ id ∈ ids bm25_results ∧
                  score r = (0 * vector_weight + y * bm25_weight)%float
              | _, _ => False
              end)
         (_combine_results vector_results bm25_results vector_weight bm25_weight top_k).
Proof.
  rewrite combine_results_eq. apply Forall_forall. intros r Hr.
  apply elem_of_lookup_imap in Hr as (i & [k c] & -> & Hkv).
  apply list_elem_of_lookup_2, subseteq_take in Hkv.
  rewrite sorted_desc_perm in Hkv.
  destruct (combined_dict_keys vector_results bm25_results) as (_ & Hk & Hel).
  unfold keyed in Hk. rewrite Forall_forall in Hk. specialize (Hk _ Hkv). simpl in Hk.
  destruct (combined_dict_entry _ _ _ _ Hkv) as [Hv Hb].
  assert (k ∈ ids vector_results ∨ k ∈ ids bm25_results) as Hside.
  { apply Hel. by apply (list_elem_of_fmap_2 fst) in Hkv. }
  exists (vector_score c), (bm25_score c). simpl. rewrite Hk.
  split_and!; [done|done|].
  unfold combined_score.
  destruct (decide (k ∈ ids vector_results)) as [Hin|Hout];
    [rewrite bool_decide_eq_true_2 in Hv by done; destruct Hv as [x ->]
    |rewrite bool_decide_eq_false_2 in Hv by done; rewrite Hv];
    (destruct (decide (k ∈ ids bm25_results)) as [Hin'|Hout'];
     [rewrite bool_decide_eq_true_2 in Hb by done; destruct Hb as [y ->]
     |rewrite bool_decide_eq_false_2 in Hb by done; rewrite Hb]);
    rewrite ?times_zero; try done.
  by destruct Hside.
Qed.

(** *** Normalization *)

Lemma py_min_uniform s rest : Forall (fun x => x = s) rest → py_min s rest = s.
Proof.
  unfold py_min. induction 1 as [|x rest -> _ IH]; simpl; [done|].
  by rewrite float_ltb_irrefl.
Qed.

Lemma py_max_uniform s rest : Forall (fun x => x = s) rest → py_max s rest = s.
Proof.
  unfold py_max. induction 1 as [|x rest -> _ IH]; simpl; [done|].
  by rewrite float_ltb_irrefl.
Qed.

(** X7.  [normalize_scores] keeps the length of its list, and a list whose
    scores are all the same number (not NaN), a single score included,
    becomes all 0.5. *)
Theorem normalize_scores_uniform (scores : list float) :
  length (normalize_scores scores) = length scores ∧
  ∀ s, (s =? s)%float = true → Forall (fun x => x = s) scores →
       normalize_scores scores = replicate (length scores) 0.5%float.
Proof.
  split.
  - destruct scores as [|s0 rest]; [done|]. unfold normalize_scores.
    destruct (_ =? _)%float; [by rewrite length_replicate|by rewrite length_fmap].
  - intros s Hs Hall. destruct scores as [|s0 rest]; [done|].
    apply Forall_cons in Hall as [-> Hall]. unfold normalize_scores.
    by rewrite (py_min_uniform s rest Hall), (py_max_uniform s rest Hall), Hs.
Qed.

Lemma normalize_scores_uniform_witness :
  normalize_scores [0.7; 0.7; 0.7]%float = [0.5; 0.5; 0.5]%float.
Proof.
  apply (proj2 (normalize_scores_uniform [0.7; 0.7; 0.7]%float) 0.7%float); [done|].
  by repeat constructor.
Defined.

End FusionFacts.

(** ** More on the graph store *)

Section StoreFacts.
Import JsonGraphClient.

Lemma write_key_NoDup ks c : NoDup ks → NoDup (write_key ks c).
Proof.
  intros Hnd. unfold write_key. destruct (key_written c) as [k|]; [|done].
  case_bool_decide as Hin; [done|].
  apply NoDup_app. split_and!; [done| |apply NoDup_singleton].
  by intros x Hx ->%list_elem_of_singleton.
Qed.

Lemma write_node_own_id m c :
  map_Forall (fun key n => node_id n = key) m →
  map_Forall (fun key n => node_id n = key) (write_node m c).
Proof.
  intros Hm. unfold write_node.
  destruct (node_written c) as [[k n]|] eqn:E; [|done].
  apply map_Forall_insert_2; [|done].
  destruct c; simplify_eq/=; done.
Qed.

Lemma perform_well_formed s c : well_formed s → well_formed (perform s c).
Proof.
  intros [Hnd Hid]. split.
  - rewrite perform_keys. by apply write_key_NoDup.
  - rewrite perform_nodes. by apply write_node_own_id.
Qed.

Lemma initial_well_formed : well_formed _initialize_data.
Proof. split; simpl; [constructor|apply map_Forall_empty]. Qed.

Lemma indexing_pass_well_formed calls s :
  well_formed s → well_formed (indexing_pass calls s).
Proof.
  unfold indexing_pass. revert s.
  induction calls as [|c calls IH]; intros s Hs; simpl; [done|].
  by apply IH, perform_well_formed.
Qed.

(** X8.  Every store reached through the writing interface is well formed: no
    two edges share a (source, target, type) triple and every node is
    stored under its own id; in particular every store built from the
    empty one. *)
Theorem indexing_keeps_store_well_formed (calls : list call) :
  well_formed (indexing_pass calls _initialize_data) ∧
  ∀ s, well_formed s → well_formed (indexing_pass calls s).
Proof.
  split; [apply indexing_pass_well_formed, initial_well_formed|].
  apply indexing_pass_well_formed.
Qed.

Lemma foldl_bump_lookup (l : list string) (m : gmap string nat) (x : string) :
  foldl bump m l !! x
  = match count_occ String.string_dec l x with
    | 0 => m !! x
    | S n => Some (S n + default 0 (m !! x))
    end.
Proof.
  revert m. induction l as [|y l IH]; intros m; [done|].
  cbn [foldl count_occ]. rewrite IH. unfold bump.
  destruct (String.string_dec y x) as [->|Hne].
  - rewrite lookup_insert_eq. simpl.
    destruct (count_occ String.string_dec l x); f_equal; lia.
  - by rewrite lookup_insert_ne.
Qed.

(** X9.  [get_database_stats] reports, for every type, the number of stored
    nodes of that type and the number of edges of that type, and has no
    entry for a type that does not occur. *)
Theorem database_stats_count (s : GraphData) (ty : string) :
  (get_database_stats s).1 !! ty
  = reported (node_type <$> (map_to_list (data_nodes s)).*2) ty ∧
  (get_database_stats s).2 !! ty
  = reported (relationship_type <$> data_edges s) ty.
Proof.
  unfold get_database_stats, reported. simpl. rewrite !foldl_bump_lookup.
  split.
  - destruct (count_occ _ _ ty); [done|]. rewrite lookup_empty. simpl. f_equal. lia.
  - destruct (count_occ _ _ ty); [done|]. rewrite lookup_empty. simpl. f_equal. lia.
Qed.

(** *** Dependencies and hierarchy *)

Lemma unique_by_id {A K} `{Countable K} (key : A → K) (seen : gset K) (l : list A) :
  NoDup (key <$> l) → (∀ x, x ∈ l → key x ∉ seen) → unique_by key seen l = l.
Proof.
  revert seen. induction l as [|x l IH]; intros seen Hnd Hseen; simpl; [done|].
  apply NoDup_cons in Hnd as [Hx Hnd].
  rewrite decide_False by (apply Hseen; by left).
  f_equal. apply IH; [done|].
  intros y Hy Hin. apply elem_of_union in Hin as [Heq%elem_of_singleton|Hin].
  - apply Hx. rewrite <- Heq. by apply list_elem_of_fmap_2.
  - by apply (Hseen y); [right|].
Qed.

Lemma filter_keys_NoDup (f : GraphEdge → bool) (es : list GraphEdge) :
  NoDup (edge_key <$> es) → NoDup (edge_key <$> List.filter f es).
Proof.
  induction es as [|e es IH]; simpl; [done|].
  intros [He Hnd]%NoDup_cons. destruct (f e); [|by apply IH].
  rewrite fmap_cons. apply NoDup_cons. split; [|by apply IH].
  intros (e' & Hk & [Hin _]%list_elem_of_In%filter_In)%list_elem_of_fmap.
  apply He. rewrite Hk. by apply list_elem_of_fmap_2, list_elem_of_In.
Qed.

Lemma outgoing_true rel name e :
  outgoing rel name e = true ↔ source_id e = name ∧ relationship_type e = rel.
Proof. unfold outgoing. by rewrite andb_true_iff, !String.eqb_eq. Qed.

Lemma find_outgoing_missing rel not_found query_type s name :
  data_nodes s !! name = None →
  nodes (find_outgoing rel not_found query_type s name) = [] ∧
  edges (find_outgoing rel not_found query_type s name) = [].
Proof. unfold find_outgoing. by intros ->. Qed.

Lemma find_outgoing_stored rel not_found query_type s name node :
  well_formed s → data_nodes s !! name = Some node →
  let g := find_outgoing rel not_found query_type s name in
  head (nodes g) = Some node ∧
  edges g = List.filter (outgoing rel name) (data_edges s) ∧
  ∀ n, n ∈ nodes g ↔
       n = node ∨ ∃ e, e ∈ edges g ∧ data_nodes s !! target_id e = Some n.
Proof.
  intros [Hnd Hid] Hnode. unfold find_outgoing. rewrite Hnode. simpl.
  rewrite decide_False by set_solver.
  assert (unique_by edge_key ∅ (List.filter (outgoing rel name) (data_edges s))
          = List.filter (outgoing rel name) (data_edges s)) as Hedges.
  { apply unique_by_id; [by apply filter_keys_NoDup|set_solver]. }
  rewrite Hedges. split_and!; try done.
  set (targets := omap _ _).
  assert (∀ n, n ∈ node :: targets → data_nodes s !! node_id n = Some n) as Hstored.
  { intros n [->|Hn]%elem_of_cons.
    - by rewrite (Hid _ _ Hnode).
    - apply list_elem_of_omap in Hn as (e & _ & Hn). by rewrite (Hid _ _ Hn). }
  intros n. split.
  - intros Hn.
    assert (n ∈ unique_by node_id ∅ (node :: targets)) as Hin.
    { simpl. by rewrite decide_False by set_solver. }
    apply unique_by_elem in Hin as [[->|Hin]%elem_of_cons _]; [by left|].
    right. apply list_elem_of_omap in Hin as (e & He & Hn'). by exists e.
  - intros Hn.
    assert (n ∈ node :: targets) as Hin.
    { destruct Hn as [->|(e & He & Hn)]; [by left|].
      right. apply list_elem_of_omap. by exists e. }
    pose proof (unique_by_keys node_id ∅ (node :: targets) (node_id n)
                               (list_elem_of_fmap_2 _ _ _ Hin)) as Hk.
    destruct (list_elem_of_fmap_1 _ _ _ (Hk ltac:(set_solver))) as (n' & Heq & Hn').
    pose proof (unique_by_elem node_id ∅ _ _ Hn') as [Hn'' _].
    assert (n' = n) as <-.
    { apply Hstored in Hn''. apply Hstored in Hin. congruence. }
    revert Hn'. simpl. by rewrite decide_False by set_solver.
Qed.

(** X10.  On a well-formed store, [find_function_dependencies] of a function
    that is not stored is empty, whatever edges leave its name; of a stored
    function it is the function node first, exactly the CALLS edges that
    leave it, in store order, and besides the function node exactly the
    stored nodes those edges lead to.  [find_class_hierarchy] does the
    same with INHERITS_FROM edges. *)
Theorem dependencies_are_outgoing_edges (s : GraphData) (name : string) :
  well_formed s →
  match data_nodes s !! name with
  | None =>
      nodes (find_function_dependencies s name) = [] ∧
      edges (find_function_dependencies s name) = [] ∧
      nodes (find_class_hierarchy s name) = [] ∧
      edges (find_class_hierarchy s name) = []
  | Some node =>
      let deps := find_function_dependencies s name in
      let parents := find_class_hierarchy s name in
      head (nodes deps) = Some node ∧
      edges deps = List.filter (outgoing "CALLS" name) (data_edges s) ∧
      (∀ n, n ∈ nodes deps ↔
            n = node ∨ ∃ e, e ∈ edges deps ∧ data_nodes s !! target_id e = Some n) ∧
      head (nodes parents) = Some node ∧
      edges parents = List.filter (outgoing "INHERITS_FROM" name) (data_edges s) ∧
      (∀ n, n ∈ nodes parents ↔
            n = node ∨ ∃ e, e ∈ edges parents ∧ data_nodes s !! target_id e = Some n)
  end.
Proof.
  intros Hwf. destruct (data_nodes s !! name) as [node|] eqn:E.
  - destruct (find_outgoing_stored "CALLS" "Function not found" "function_dependencies"
                                   s name node Hwf E) as (? & ? & ?).
    destruct (find_outgoing_stored "INHERITS_FROM" "Class not found" "class_hierarchy"
                                   s name node Hwf E) as (? & ? & ?).
    by split_and!.
  - destruct (find_outgoing_missing "CALLS" "Function not found" "function_dependencies"
                                    s name E).
    destruct (find_outgoing_missing "INHERITS_FROM" "Class not found" "class_hierarchy"
                                    s name E).
    by split_and!.
Qed.

Lemma dependencies_are_outgoing_edges_witness :
  (edge_key <$> edges (find_function_dependencies calls_store "m.py::main"))
  = [("m.py::main", "m.py::hello", "CALLS")] ∧
  edges (find_class_hierarchy calls_store "m.py::main") = [].
Proof.
  assert (well_formed calls_store) as Hwf.
  { apply indexing_pass_well_formed, initial_well_formed. }
  pose proof (dependencies_are_outgoing_edges calls_store "m.py::main" Hwf) as H.
  destruct (data_nodes calls_store !! "m.py::main") as [node|] eqn:E.
  - destruct H as (_ & -> & _ & _ & -> & _). by vm_compute.
  - by vm_compute in E.
Defined.

Lemma create_relationship_key s src tgt ty props :
  ∃ e, e ∈ data_edges (create_relationship s src tgt ty props) ∧
       edge_key e = (src, tgt, ty).
Proof.
  pose proof (perform_keys s (CreateRelationship src tgt ty props)) as Hk.
  simpl in Hk. unfold write_key in Hk. simpl in Hk.
  assert ((src, tgt, ty) ∈ edge_key <$> data_edges (create_relationship s src tgt ty props))
    as Hin.
  { rewrite Hk. case_bool_decide; [done|]. apply elem_of_app. right. by left. }
  apply list_elem_of_fmap in Hin as (e & Heq & He). by exists e.
Qed.

Lemma create_relationship_nodes s src tgt ty props :
  data_nodes (create_relationship s src tgt ty props) = data_nodes s.
Proof. unfold create_relationship. by destruct (List.find _ _), props. Qed.

(** X11.  Recording a call and asking for the caller's dependencies: when the
    caller has no node the answer is empty although the edge is stored;
    when it has one, the answer starts with that node, holds the edge, and
    holds the callee's node if the callee is stored. *)
Theorem call_relationship_round_trip (s : GraphData) (caller callee : string) :
  let g := find_function_dependencies
             (create_function_call_relationship s caller callee) caller in
  (data_nodes s !! caller = None → nodes g = [] ∧ edges g = []) ∧
  (∀ node, data_nodes s !! caller = Some node →
           head (nodes g) = Some node ∧
           (caller, callee, "CALLS") ∈ edge_key <$> edges g ∧
           ∀ n, data_nodes s !! callee = Some n → node_id n ∈ node_id <$> nodes g).
Proof.
  intros g. subst g.
  unfold find_function_dependencies, find_outgoing, create_function_call_relationship.
  rewrite create_relationship_nodes.
  destruct (create_relationship_key s caller callee "CALLS" None) as (e & He & Hk).
  set (s' := create_relationship s caller callee "CALLS" None) in *.
  assert (e ∈ List.filter (outgoing "CALLS" caller) (data_edges s')) as Hfound.
  { apply list_elem_of_In, filter_In. split; [by apply list_elem_of_In|].
    apply outgoing_true. by injection Hk as -> _ ->. }
  split.
  - by intros ->.
  - intros node ->. simpl. rewrite decide_False by set_solver. split_and!; [done| |].
    + rewrite <- Hk. apply unique_by_keys; [by apply list_elem_of_fmap_2|set_solver].
    + intros n Hn.
      change (node_id n ∈ node_id <$> unique_by node_id ∅
                (node :: omap (fun e => data_nodes s !! target_id e)
                              (List.filter (outgoing "CALLS" caller) (data_edges s')))).
      apply unique_by_keys; [|set_solver].
      apply list_elem_of_fmap_2. right. apply list_elem_of_omap.
      exists e. split; [done|]. by injection Hk as _ -> _.
Qed.

Lemma call_relationship_round_trip_witness :
  let g := find_function_dependencies
             (create_function_call_relationship calls_store "m.py::hello" "m.py::main")
             "m.py::hello" in
  ("m.py::hello", "m.py::main", "CALLS") ∈ edge_key <$> edges g ∧
  node_id <$> nodes g = ["m.py::hello"; "m.py::main"].
Proof.
  intros g.
  destruct (proj2 (call_relationship_round_trip calls_store "m.py::hello" "m.py::main")
                  (code_entity_node "Function" "hello" "m.py::hello" "m.py" 1 ∅))
    as (_ & Hedge & _); [by vm_compute|].
  split; [exact Hedge|by vm_compute].
Defined.

(** *** The structure of a file *)

Lemma touches_true ids e :
  touches ids e = true ↔ source_id e ∈ ids ∨ target_id e ∈ ids.
Proof. unfold touches. by rewrite orb_true_iff, !bool_decide_eq_true. Qed.

Lemma elem_of_end_nodes_but s file_path e n :
  n ∈ end_nodes_but s file_path e ↔
  ∃ k, (k = source_id e ∨ k = target_id e) ∧ k ≠ file_path ∧ data_nodes s !! k = Some n.
Proof.
  unfold end_nodes_but. rewrite list_elem_of_omap. split.
  - intros (k & Hk & Hn). exists k.
    destruct (String.eqb_spec k file_path); [done|].
    split_and!; try done.
    apply elem_of_cons in Hk as [->|Hk]; [by left|].
    apply list_elem_of_singleton in Hk as ->. by right.
  - intros (k & Hk & Hne & Hn). exists k.
    rewrite (proj2 (String.eqb_neq k file_path) Hne). split; [|done].
    destruct Hk as [-> | ->]; [by left|right; by left].
Qed.

(** X12.  [get_file_structure] of a path that is not stored is empty.  Of a
    stored file, on a well-formed store, it starts with the file node and
    has each node id and each edge triple once; it holds every edge at the
    file, and for every Chunk node at the other end of such an edge every
    edge at that chunk together with the stored nodes at its ends. *)
Theorem file_structure_reaches_chunk_entities (s : GraphData) (file_path : string) :
  well_formed s →
  let g := get_file_structure s file_path in
  (data_nodes s !! file_path = None → nodes g = [] ∧ edges g = []) ∧
  (∀ file_node, data_nodes s !! file_path = Some file_node →
     head (nodes g) = Some file_node ∧
     NoDup (node_id <$> nodes g) ∧
     NoDup (edge_key <$> edges g) ∧
     (∀ e, e ∈ data_edges s → source_id e = file_path ∨ target_id e = file_path →
           edge_key e ∈ edge_key <$> edges g) ∧
     (∀ e1 e2 c nc,
        e1 ∈ data_edges s → source_id e1 = file_path ∨ target_id e1 = file_path →
        c = source_id e1 ∨ c = target_id e1 → c ≠ file_path →
        data_nodes s !! c = Some nc → node_type nc = "Chunk" →
        e2 ∈ data_edges s → source_id e2 = c ∨ target_id e2 = c →
        edge_key e2 ∈ edge_key <$> edges g ∧
        ∀ k n, k = source_id e2 ∨ k = target_id e2 → k ≠ file_path →
               data_nodes s !! k = Some n → node_id n ∈ node_id <$> nodes g)).
Proof.
  intros [_ Hid] g. subst g. unfold get_file_structure. split; [by intros ->|].
  intros file_node ->.
  set (at_file := List.filter (touches [file_path]) (data_edges s)).
  set (nodes1 := file_node :: flat_map (end_nodes_but s file_path) at_file).
  set (chunk_ids := node_id <$> List.filter _ nodes1).
  set (at_chunks := List.filter (touches chunk_ids) (data_edges s)).
  cbn [nodes edges].
  assert (∀ e, e ∈ data_edges s → source_id e = file_path ∨ target_id e = file_path →
               e ∈ at_file) as Hat_file.
  { intros e He Hends. apply list_elem_of_In, filter_In. split; [by apply list_elem_of_In|].
    apply touches_true. destruct Hends as [-> | ->]; [left|right]; by left. }
  split_and!.
  - subst nodes1. simpl. by rewrite decide_False by set_solver.
  - apply unique_by_NoDup.
  - apply unique_by_NoDup.
  - intros e He Hends. apply unique_by_keys; [|set_solver].
    apply list_elem_of_fmap_2, elem_of_app. left. by apply Hat_file.
  - intros e1 e2 c nc He1 Hends1 Hc Hne Hnc Hty He2 Hends2.
    assert (c ∈ chunk_ids) as Hchunk.
    { subst chunk_ids. rewrite <- (Hid _ _ Hnc). apply list_elem_of_fmap_2.
      apply list_elem_of_In, filter_In. split; [|by apply String.eqb_eq].
      apply list_elem_of_In. subst nodes1. right.
      apply list_elem_of_In, in_flat_map. exists e1.
      split; [by apply list_elem_of_In, Hat_file|].
      apply list_elem_of_In, elem_of_end_nodes_but. by exists c. }
    assert (e2 ∈ at_chunks) as Hat_chunks.
    { apply list_elem_of_In, filter_In. split; [by apply list_elem_of_In|].
      apply touches_true. destruct Hends2 as [-> | ->]; [by left|by right]. }
    split.
    + apply unique_by_keys; [|set_solver].
      apply list_elem_of_fmap_2, elem_of_app. by right.
    + intros k n Hk Hkne Hn. apply unique_by_keys; [|set_solver].
      apply list_elem_of_fmap_2, elem_of_app. right.
      apply list_elem_of_In, in_flat_map. exists e2.
      split; [by apply list_elem_of_In|].
      apply list_elem_of_In, elem_of_end_nodes_but. by exists k.
Qed.

Lemma file_structure_reaches_chunk_entities_witness :
  let g := get_file_structure file_store "m.py" in
  ("m.py::hello", "m.py#0", "DEFINED_IN") ∈ edge_key <$> edges g ∧
  "m.py::hello" ∈ node_id <$> nodes g.
Proof.
  intros g.
  assert (well_formed file_store) as Hwf
    by apply indexing_pass_well_formed, initial_well_formed.
  destruct (proj2 (file_structure_reaches_chunk_entities file_store "m.py" Hwf)
                  (file_node "m.py" "python" "source" None) ltac:(by vm_compute))
    as (_ & _ & _ & _ & Hreach).
  assert (GraphReranker.call_edge "m.py" "m.py#0" "CONTAINS" ∈ data_edges file_store)
    as He1 by (vm_compute; by left).
  assert (GraphReranker.call_edge "m.py::hello" "m.py#0" "DEFINED_IN"
            ∈ data_edges file_store)
    as He2 by (vm_compute; right; by left).
  destruct (Hreach _ _ "m.py#0" (chunk_node hello_chunk) He1 (or_introl eq_refl)
                   (or_intror eq_refl) ltac:(done) ltac:(by vm_compute) eq_refl
                   He2 (or_intror eq_refl)) as [Hedge Hnode].
  split; [exact Hedge|].
  apply (Hnode "m.py::hello" (code_entity_node "Function" "hello" "m.py::hello" "m.py" 1 ∅));
    [by left|done|by vm_compute].
Defined.

End StoreFacts.


(** ** The search tool *)

Section SearchCodeFacts.
Import HybridSearch GraphReranker McpServer.

Lemma descending_scores {A B} (f : A → float) (g : B → float) (l : list A) (l' : list B) :
  f <$> l = g <$> l' → descending f l → descending g l'.
Proof.
  intros Heq Hd i x y Hx Hy.
  assert (g <$> l' !! i = Some (g x)) as Hx' by by rewrite Hx.
  assert (g <$> l' !! S i = Some (g y)) as Hy' by by rewrite Hy.
  rewrite <- !list_lookup_fmap, <- Heq, !list_lookup_fmap in Hx', Hy'.
  destruct (l !! i) as [a|] eqn:Ea; [|done].
  destruct (l !! S i) as [b|] eqn:Eb; [|done].
  simpl in Hx', Hy'. injection Hx' as <-. injection Hy' as <-.
  by apply (Hd i).
Qed.

Lemma combine_results_shape vr br wv wb top_k :
  let out := _combine_results vr br wv wb top_k in
  NoDup (ids out) ∧ length out ≤ top_k ∧
  rank <$> out = seq 1 (length out) ∧ descending score out.
Proof.
  intros out. subst out. rewrite combine_results_eq.
  destruct (combined_dict_keys vr br) as (Hnd & Hk & _).
  assert (keyed (take top_k (sorted_desc (fun kv : string * Combined =>
                                            combined_score wv wb kv.2)
                                         (combined_dict vr br)))) as Hk'.
  { unfold keyed. apply Forall_take. by rewrite sorted_desc_perm. }
  rewrite (ids_imap_hybrid _ _ _ Hk'). split_and!.
  - rewrite fmap_take. eapply sublist_NoDup; [|apply sublist_take].
    by rewrite sorted_desc_perm.
  - rewrite length_imap, length_take. lia.
  - by rewrite rank_imap_hybrid, length_imap.
  - apply descending_imap_hybrid, descending_take, sorted_desc_descending.
Qed.

Lemma search_hybrid_shape _preprocess_text get_scores search_similar
      (self : HybridSearch) query top_k wv wb use_graph :
  let out := search_hybrid _preprocess_text get_scores search_similar self
                           query top_k wv wb use_graph in
  NoDup (ids out) ∧ length out ≤ top_k ∧
  rank <$> out = seq 1 (length out) ∧ descending score out.
Proof.
  intros out. subst out. unfold search_hybrid.
  set (vr := _vector_search _ _ _ _). set (br := _bm25_search _ _ _ _ _).
  pose proof (combine_results_shape vr br wv wb top_k) as Hshape. simpl in Hshape.
  set (l := _combine_results vr br wv wb top_k) in *.
  assert (∀ l' : list SearchResult, ranking <$> l' = ranking <$> l →
            NoDup (ids l') ∧ length l' ≤ top_k ∧
            rank <$> l' = seq 1 (length l') ∧ descending score l') as Hsame.
  { intros l' Heq. destruct Hshape as (Hnd & Hlen & Hrank & Hdesc).
    assert (length l' = length l) as Hl.
    { by rewrite <- (length_fmap ranking l'), Heq, length_fmap. }
    assert (ids l' = ids l) as ->.
    { unfold ids.
      change (fun r => chunk_id (chunk r)) with ((fun t => chunk_id t.1.1.1) ∘ ranking).
      by rewrite !list_fmap_compose, Heq. }
    assert (rank <$> l' = rank <$> l) as ->.
    { change rank with ((fun t : CodeChunk * float * nat * string => t.1.2) ∘ ranking).
      by rewrite !list_fmap_compose, Heq. }
    split_and!; [done|lia|by rewrite Hl|].
    apply (descending_scores score score l); [|done].
    change score with ((fun t : CodeChunk * float * nat * string => t.1.1.2) ∘ ranking).
    by rewrite !list_fmap_compose, Heq. }
  destruct use_graph, l eqn:El; try (by apply Hsame).
  apply Hsame, enhance_ranking.
Qed.

Lemma ids_imap_set_rank (l : list SearchResult) : ids (imap set_rank l) = ids l.
Proof.
  unfold ids. apply list_eq. intros i.
  rewrite !list_lookup_fmap, list_lookup_imap. by destruct (l !! i).
Qed.

Lemma rerank_results_no_cut feature_score (self : GraphReranker)
      (results : list SearchResult) query top_k :
  length results ≤ top_k →
  rerank_results feature_score self results query top_k
  = Ok (imap set_rank (sorted_desc score (blended feature_score self query <$> results))).
Proof.
  intros Hlen. destruct results as [|r0 rs]; [done|].
  unfold rerank_results. rewrite ranked_eq.
  set (l := imap set_rank _).
  assert (length l = length (r0 :: rs)) as Hl.
  { subst l. by rewrite length_imap, sorted_desc_perm, length_fmap. }
  change (Ok (take top_k l) = Ok l). f_equal. apply take_ge. lia.
Qed.

(** X14.  The retrieval of the tool [search_code] never fails, whatever the
    vector backend, the graph client and the feature scoring do.  It
    returns at most [top_k] results, each chunk once, ranked 1, 2, ... in
    list order with no result directly followed by one of strictly greater
    score.  Reranking only reorders: the chunks returned are those the
    hybrid search found, none is cut. *)
Theorem search_code_reranking_only_reorders
        (_preprocess_text : string → list string)
        (get_scores : BM25Okapi → list string → list float)
        (search_similar : string → nat → result (list SearchResult))
        (feature_score : SearchResult → string → GraphResult → result float)
        (hybrid_search : HybridSearch) (graph_reranker : GraphReranker)
        (query : string) (top_k : nat) (use_graph use_reranking : bool) :
  let found := search_hybrid _preprocess_text get_scores search_similar hybrid_search
                             query top_k 0.6%float 0.4%float use_graph in
  ∃ out, search_code_results _preprocess_text get_scores search_similar feature_score
                             hybrid_search graph_reranker query top_k
                             use_graph use_reranking = Ok out ∧
         ids out ≡ₚ ids found ∧
         NoDup (ids out) ∧
         length out ≤ top_k ∧
         rank <$> out = seq 1 (length out) ∧
         descending score out.
Proof.
  intros found. unfold search_code_results. fold found.
  destruct (search_hybrid_shape _preprocess_text get_scores search_similar hybrid_search
              query top_k 0.6%float 0.4%float use_graph) as (Hnd & Hlen & Hrank & Hdesc).
  fold found in Hnd, Hlen, Hrank, Hdesc.
  destruct use_reranking; [|destruct found; by eexists].
  destruct found as [|r0 rs] eqn:Ef; [by eexists|]. rewrite <- Ef in *.
  rewrite (rerank_results_no_cut feature_score graph_reranker found query top_k Hlen).
  eexists. split; [reflexivity|].
  assert (ids (imap set_rank (sorted_desc score
                 (blended feature_score graph_reranker query <$> found))) ≡ₚ ids found)
    as Hperm.
  { rewrite ids_imap_set_rank. unfold ids. rewrite sorted_desc_perm.
    by rewrite <- list_fmap_compose. }
  split_and!.
  - done.
  - by rewrite Hperm.
  - rewrite length_imap, sorted_desc_perm, length_fmap. done.
  - by rewrite rank_imap_set_rank, length_imap.
  - apply descending_imap_set_rank, sorted_desc_descending.
Qed.

End SearchCodeFacts.

(** ** Indexing into the graph store *)

Section GraphDataFacts.
Import JsonGraphClient HybridSearch.

Lemma group_step_new d c : grouped (group_step d c) c.
Proof.
  induction d as [|[p fd] d IH]; simpl.
  - eexists. split; [by left|by left].
  - destruct (String.eqb p (chunk_file_path c)) eqn:E.
    + apply String.eqb_eq in E as ->. eexists. split; [by left|].
      simpl. apply elem_of_app. right. by left.
    + destruct IH as (fd' & Hin & Hc). exists fd'. split; [by right|done].
Qed.

Lemma group_step_keep d c c' : grouped d c' → grouped (group_step d c) c'.
Proof.
  induction d as [|[p fd] d IH]; intros (fd' & Hin & Hc).
  - by apply elem_of_nil in Hin.
  - simpl. apply elem_of_cons in Hin as [Heq|Hin].
    + injection Heq as <- <-.
      destruct (String.eqb _ (chunk_file_path c)).
      * eexists. split; [by left|]. simpl. apply elem_of_app. by left.
      * exists fd'. split; [by left|done].
    + destruct (String.eqb p (chunk_file_path c)).
      * exists fd'. split; [by right|done].
      * destruct IH as (fd'' & Hin' & Hc'); [by exists fd'|].
        exists fd''. split; [by right|done].
Qed.

Lemma foldl_group_step_keep chunks d c :
  grouped d c → grouped (foldl group_step d chunks) c.
Proof.
  revert d. induction chunks as [|c' chunks IH]; intros d Hd; simpl; [done|].
  by apply IH, group_step_keep.
Qed.

Lemma foldl_group_step chunks d c : c ∈ chunks → grouped (foldl group_step d chunks) c.
Proof.
  revert d. induction chunks as [|c' chunks IH]; intros d; simpl.
  - by intros ?%elem_of_nil.
  - intros [->|Hc]%elem_of_cons; [|by apply IH].
    apply foldl_group_step_keep, group_step_new.
Qed.

Section Calls.
Variable _determine_file_type : string → string.
Variable _extract_functions : string → string → list (string * nat).
Variable _extract_classes : string → string → list (string * nat).

Let calls := _create_graph_data _determine_file_type _extract_functions _extract_classes.

Lemma chunk_calls_made chunks c call :
  c ∈ chunks →
  call ∈ chunk_calls _extract_functions _extract_classes (chunk_file_path c) c →
  call ∈ calls chunks.
Proof.
  intros Hc Hcall. destruct (foldl_group_step chunks [] c Hc) as (fd & Hin & Hfd).
  unfold calls, _create_graph_data. apply list_elem_of_In, in_flat_map.
  exists (chunk_file_path c, fd). split; [by apply list_elem_of_In|].
  simpl. right. apply in_flat_map. exists c. by rewrite <- !list_elem_of_In.
Qed.

Lemma file_call_made chunks c :
  c ∈ chunks →
  ∃ language file_type metadata,
    CreateFileNode (chunk_file_path c) language file_type metadata ∈ calls chunks.
Proof.
  intros Hc. destruct (foldl_group_step chunks [] c Hc) as (fd & Hin & Hfd).
  eexists _, _, _. unfold calls, _create_graph_data. apply list_elem_of_In, in_flat_map.
  exists (chunk_file_path c, fd). split; [by apply list_elem_of_In|]. simpl. by left.
Qed.
End Calls.

Lemma write_node_incl m c k : is_Some (m !! k) → is_Some (write_node m c !! k).
Proof.
  unfold write_node. destruct (node_written c) as [[k' n]|]; [|done].
  intros Hk. destruct (decide (k' = k)) as [->|Hne].
  - rewrite lookup_insert_eq. by eexists.
  - by rewrite lookup_insert_ne.
Qed.

Lemma foldl_write_node_incl calls m k :
  is_Some (m !! k) → is_Some (foldl write_node m calls !! k).
Proof.
  revert m. induction calls as [|c calls IH]; intros m Hk; simpl; [done|].
  by apply IH, write_node_incl.
Qed.

Lemma foldl_write_node_written calls m c k n :
  c ∈ calls → node_written c = Some (k, n) → is_Some (foldl write_node m calls !! k).
Proof.
  revert m. induction calls as [|c' calls IH]; intros m; simpl; [by intros ?%elem_of_nil|].
  intros [->|Hc]%elem_of_cons Hk; [|by eapply IH].
  apply foldl_write_node_incl. unfold write_node. rewrite Hk.
  rewrite lookup_insert_eq. by eexists.
Qed.

Lemma related_chunks_edge s chunk_id src tgt ty max_hops :
  well_formed s →
  (src, tgt, ty) ∈ edge_key <$> data_edges s →
  ty ∈ default_relationship_types →
  src = chunk_id ∨ tgt = chunk_id →
  is_Some (data_nodes s !! src) → is_Some (data_nodes s !! tgt) →
  let g := find_related_chunks s chunk_id None max_hops in
  (src, tgt, ty) ∈ edge_key <$> edges g ∧
  src ∈ node_id <$> nodes g ∧ tgt ∈ node_id <$> nodes g.
Proof.
  intros [_ Hid] (e & Hkey & He)%list_elem_of_fmap Hty Hend [ns Hs] [nt Ht] g.
  injection Hkey as Hsrc Htgt Hrel.
  assert (e ∈ List.filter (related default_relationship_types chunk_id) (data_edges s))
    as Hfound.
  { apply elem_of_found. split_and!; [done|by rewrite <- Hrel|].
    rewrite <- Hsrc, <- Htgt. done. }
  assert (∀ k n, (k = source_id e ∨ k = target_id e) → data_nodes s !! k = Some n →
                 k ∈ node_id <$> nodes g) as Hnode.
  { intros k n Hk Hn. subst g. simpl. apply unique_by_keys; [|set_solver].
    rewrite <- (Hid k n Hn). apply list_elem_of_fmap_2.
    apply list_elem_of_In, in_flat_map. exists e. rewrite <- !list_elem_of_In.
    split; [done|]. apply elem_of_end_nodes. by exists k. }
  split_and!.
  - subst g. simpl. apply unique_by_keys; [|set_solver].
    assert ((src, tgt, ty) = edge_key e) as -> by (unfold edge_key; congruence).
    by apply list_elem_of_fmap_2.
  - apply (Hnode src ns); [left; congruence|done].
  - apply (Hnode tgt nt); [right; congruence|done].
Qed.

(** X15.  After [_create_graph_data] has run on a store, the neighborhood query
    on any chunk it indexed returns the CONTAINS relationship from the
    chunk's file, with the file and the chunk among the nodes, and for
    every function or class extracted from the chunk the DEFINED_IN
    relationship from that entity, with the entity among the nodes. *)
Theorem indexed_chunk_is_linked
        (_determine_file_type : string → string)
        (_extract_functions _extract_classes : string → string → list (string * nat))
        (s : GraphData) (chunks : list CodeChunk) (c : CodeChunk) :
  well_formed s → c ∈ chunks →
  let calls :=
    _create_graph_data _determine_file_type _extract_functions _extract_classes chunks in
  let g := find_related_chunks (indexing_pass calls s) (chunk_id c) None 2 in
  (chunk_file_path c, chunk_id c, "CONTAINS") ∈ edge_key <$> edges g ∧
  chunk_file_path c ∈ node_id <$> nodes g ∧
  chunk_id c ∈ node_id <$> nodes g ∧
  Forall (fun info => (qualified c info.1, chunk_id c, "DEFINED_IN") ∈ edge_key <$> edges g ∧
                      qualified c info.1 ∈ node_id <$> nodes g)
         (_extract_functions (content c) (language c)
          ++ _extract_classes (content c) (language c)).
Proof.
  intros Hwf Hc calls g.
  assert (well_formed (indexing_pass calls s)) as Hwf' by by apply indexing_pass_well_formed.
  assert (∀ call k, call ∈ calls → key_written call = Some k →
                    k ∈ edge_key <$> data_edges (indexing_pass calls s)) as Hedge.
  { intros call k Hin Hk. rewrite indexing_pass_keys. by eapply foldl_write_key_written. }
  assert (∀ call k n, call ∈ calls → node_written call = Some (k, n) →
                      is_Some (data_nodes (indexing_pass calls s) !! k)) as Hnode.
  { intros call k n Hin Hk. rewrite indexing_pass_nodes.
    by eapply foldl_write_node_written. }
  assert (∀ call, call ∈ chunk_calls _extract_functions _extract_classes
                                     (chunk_file_path c) c → call ∈ calls) as Hmade.
  { intros call. by apply chunk_calls_made. }
  destruct (file_call_made _determine_file_type _extract_functions _extract_classes
                           chunks c Hc) as (l & t & m & Hfile).
  assert (is_Some (data_nodes (indexing_pass calls s) !! chunk_id c)) as Hchunk.
  { eapply (Hnode (CreateChunkNode c)); [|reflexivity]. apply Hmade. by left. }
  assert (is_Some (data_nodes (indexing_pass calls s) !! chunk_file_path c)) as Hpath.
  { eapply Hnode; [exact Hfile|reflexivity]. }
  destruct (related_chunks_edge (indexing_pass calls s) (chunk_id c)
              (chunk_file_path c) (chunk_id c) "CONTAINS" 2) as (He & Hs & Ht);
    [done| |set_solver|by right|done|done|].
  { apply (Hedge (CreateRelationship (chunk_file_path c) (chunk_id c) "CONTAINS" None));
      [|done]. apply Hmade. right. by left. }
  split_and!; [done..|].
  apply Forall_forall. intros info Hinfo.
  assert (∃ entity n,
            CreateRelationship (qualified c info.1) (chunk_id c) "DEFINED_IN" None ∈ calls ∧
            entity ∈ calls ∧
            node_written entity = Some (qualified c info.1, n))
    as (entity & n & Hrel & Hentity & Hw).
  { apply elem_of_app in Hinfo as [Hf|Hk].
    - exists (CreateFunctionNode info.1 (qualified c info.1) (chunk_file_path c)
                                 (chunk_start_line c + Z.of_nat info.2) ∅).
      eexists. split_and!; [| |reflexivity]; apply Hmade; unfold chunk_calls;
        do 2 right; apply elem_of_app; left;
        apply list_elem_of_In, in_flat_map; exists info;
        (split; [by apply list_elem_of_In|]); [right; by left|by left].
    - exists (CreateClassNode info.1 (qualified c info.1) (chunk_file_path c)
                              (chunk_start_line c + Z.of_nat info.2) ∅).
      eexists. split_and!; [| |reflexivity]; apply Hmade; unfold chunk_calls;
        do 2 right; apply elem_of_app; right;
        apply list_elem_of_In, in_flat_map; exists info;
        (split; [by apply list_elem_of_In|]); [right; by left|by left]. }
  destruct (related_chunks_edge (indexing_pass calls s) (chunk_id c)
              (qualified c info.1) (chunk_id c) "DEFINED_IN" 2) as (He' & Hs' & _);
    [done|by apply (Hedge _ _ Hrel)|set_solver|by right|by apply (Hnode _ _ _ Hentity Hw)
    |done|done].
Qed.

Lemma indexed_chunk_is_linked_witness :
  let g := find_related_chunks
             (indexing_pass (_create_graph_data (fun _ => "source")
                                                (fun _ _ => [("hello", 0)]) (fun _ _ => [])
                                                [hello_chunk])
                            _initialize_data)
             "m.py#0" None 2 in
  ("m.py", "m.py#0", "CONTAINS") ∈ edge_key <$> edges g ∧
  "m.py" ∈ node_id <$> nodes g ∧
  "m.py#0" ∈ node_id <$> nodes g ∧
  Forall (fun info => (qualified hello_chunk info.1, "m.py#0", "DEFINED_IN")
                        ∈ edge_key <$> edges g ∧
                      qualified hello_chunk info.1 ∈ node_id <$> nodes g)
         [("hello", 0)].
Proof.
  apply (indexed_chunk_is_linked (fun _ => "source") (fun _ _ => [("hello", 0)])
                                 (fun _ _ => []) _initialize_data [hello_chunk] hello_chunk).
  - apply initial_well_formed.
  - by left.
Defined.

End GraphDataFacts.

(** ** Conflict resolution *)

Section ConflictFacts.
Import ConflictResolutionReranker.

Lemma elem_of_top_ids results k :
  k ∈ top_ids results ↔ ∃ r, r ∈ take 5 results ∧ chunk_id (chunk r) = k.
Proof.
  unfold top_ids, ids. rewrite elem_of_list_to_set, list_elem_of_fmap. naive_solver.
Qed.

Lemma elem_of_kept {B} (P : B → Prop) `{∀ x, Decision (P x)} (l : list B) x :
  x ∈ List.filter (fun y => bool_decide (P y)) l ↔ x ∈ l ∧ P x.
Proof. by rewrite list_elem_of_In, filter_In, <- list_elem_of_In, bool_decide_eq_true. Qed.

Lemma elem_of_identify_conflicts vr br c :
  c ∈ _identify_conflicts vr br ↔
  (∃ v, v ∈ take 5 vr ∧ (chunk_id (chunk v) ∉ top_ids br) ∧ c = vector_conflict br v) ∨
  (∃ b, b ∈ take 5 br ∧ (chunk_id (chunk b) ∉ top_ids vr) ∧ c = bm25_conflict vr b).
Proof.
  unfold _identify_conflicts. rewrite elem_of_app, !list_elem_of_fmap.
  setoid_rewrite elem_of_kept. naive_solver.
Qed.

(** X16.  [_identify_conflicts] finds no conflict exactly when the two result
    lists have the same chunk ids among their first five results.  It
    reports at most ten conflicts; each is about a chunk among the first
    five of one list and not among the first five of the other, and its
    type says which. *)
Theorem conflicts_are_top_five_disagreements (vector_results bm25_results : list SearchResult) :
  let conflicts := _identify_conflicts vector_results bm25_results in
  (conflicts = [] ↔ top_ids vector_results = top_ids bm25_results) ∧
  length conflicts ≤ 10 ∧
  Forall (fun c =>
            (conflict_type c = "vector_high_bm25_low" ∧
             conflict_chunk_id c ∈ top_ids vector_results ∧
             conflict_chunk_id c ∉ top_ids bm25_results) ∨
            (conflict_type c = "bm25_high_vector_low" ∧
             conflict_chunk_id c ∈ top_ids bm25_results ∧
             conflict_chunk_id c ∉ top_ids vector_results))
         conflicts.
Proof.
  intros conflicts. split_and!.
  - split.
    + intros Hnil. apply set_eq. intros k.
      assert (∀ c, c ∉ conflicts) as Hnone by (rewrite Hnil; apply not_elem_of_nil).
      split; intros (r & Hr & <-)%elem_of_top_ids.
      * destruct (decide (chunk_id (chunk r) ∈ top_ids bm25_results)) as [|Hout]; [done|].
        destruct (Hnone (vector_conflict bm25_results r)).
        apply elem_of_identify_conflicts. left. by exists r.
      * destruct (decide (chunk_id (chunk r) ∈ top_ids vector_results)) as [|Hout]; [done|].
        destruct (Hnone (bm25_conflict vector_results r)).
        apply elem_of_identify_conflicts. right. by exists r.
    + intros Heq. destruct conflicts as [|c rest] eqn:E; [done|].
      assert (c ∈ conflicts) as Hc by (rewrite E; by left).
      apply elem_of_identify_conflicts in Hc as [(v & Hv & Hout & _)|(b & Hb & Hout & _)].
      * destruct Hout. rewrite <- Heq. apply elem_of_top_ids. by exists v.
      * destruct Hout. rewrite Heq. apply elem_of_top_ids. by exists b.
  - subst conflicts. unfold _identify_conflicts.
    rewrite length_app, !length_fmap.
    pose proof (filter_length_le
                  (fun v => bool_decide (chunk_id (chunk v) ∉ top_ids bm25_results))
                  (take 5 vector_results)).
    pose proof (filter_length_le
                  (fun b => bool_decide (chunk_id (chunk b) ∉ top_ids vector_results))
                  (take 5 bm25_results)).
    pose proof (length_take_le vector_results 5).
    pose proof (length_take_le bm25_results 5).
    rewrite length_take in *. lia.
  - apply Forall_forall. intros c.
    intros [(v & Hv & Hout & ->)|(b & Hb & Hout & ->)]%elem_of_identify_conflicts; simpl.
    + left. split_and!; [done| |done]. apply elem_of_top_ids. by exists v.
    + right. split_and!; [done| |done]. apply elem_of_top_ids. by exists b.
Qed.

Section ResolveFacts.
Variable _analyze_query_type : string → string.
Variable query : string.

Lemma foldl_resolve_step_other conflicts m k :
  (∀ c, c ∈ conflicts → conflict_chunk_id c ≠ k) →
  foldl (resolve_step _analyze_query_type query) m conflicts !! k = m !! k.
Proof.
  revert m. induction conflicts as [|c conflicts IH]; intros m Hne; simpl; [done|].
  rewrite IH by (intros c' Hc'; apply Hne; by right).
  unfold resolve_step. apply lookup_insert_ne, Hne. by left.
Qed.

Lemma foldl_resolve_step_same conflicts m k ty :
  (∃ c, c ∈ conflicts ∧ conflict_chunk_id c = k) →
  (∀ c, c ∈ conflicts → conflict_chunk_id c = k → conflict_type c = ty) →
  foldl (resolve_step _analyze_query_type query) m conflicts !! k
  = Some (resolution (_analyze_query_type query) ty).
Proof.
  revert m. induction conflicts as [|c conflicts IH]; intros m (c0 & Hc0 & Hk) Hty.
  - by apply elem_of_nil in Hc0.
  - simpl. destruct (decide (k ∈ conflict_chunk_id <$> conflicts)) as [Hin|Hout].
    + apply IH.
      * apply list_elem_of_fmap in Hin as (c1 & -> & Hc1). by exists c1.
      * intros c1 Hc1. apply Hty. by right.
    + rewrite foldl_resolve_step_other.
      * apply elem_of_cons in Hc0 as [->|Hc0].
        -- unfold resolve_step. rewrite Hk, lookup_insert_eq.
           by rewrite (Hty c) by (done || by left).
        -- destruct Hout. rewrite <- Hk. by apply list_elem_of_fmap_2.
      * intros c1 Hc1 Heq. destruct Hout. rewrite <- Heq. by apply list_elem_of_fmap_2.
Qed.
End ResolveFacts.

(** X17.  The scores [_resolve_conflicts] gives the conflicts of
    [_identify_conflicts]: a chunk among the first five vector results and
    not among the first five BM25 results gets the vector-side score of the
    query type (1.0 for a semantic query, 0.7 for a keyword query, 0.8
    otherwise), a chunk the other way round gets the BM25-side score (0.7,
    1.0, 0.8), and every other chunk has no entry. *)
Theorem resolved_scores_by_side
        (_analyze_query_type : string → string)
        (vector_results bm25_results : list SearchResult) (query : string) (k : string) :
  let resolved_scores :=
    _resolve_conflicts _analyze_query_type
                       (_identify_conflicts vector_results bm25_results) query in
  let query_type := _analyze_query_type query in
  resolved_scores !! k =
    if bool_decide (k ∈ top_ids vector_results ∖ top_ids bm25_results)
    then Some (resolution query_type "vector_high_bm25_low")
    else if bool_decide (k ∈ top_ids bm25_results ∖ top_ids vector_results)
         then Some (resolution query_type "bm25_high_vector_low")
         else None.
Proof.
  intros resolved_scores query_type. subst resolved_scores query_type.
  unfold _resolve_conflicts.
  case_bool_decide as Hv; [|case_bool_decide as Hb].
  - apply elem_of_difference in Hv as [(v & Hv & <-)%elem_of_top_ids Hout].
    apply foldl_resolve_step_same.
    + exists (vector_conflict bm25_results v). split; [|done].
      apply elem_of_identify_conflicts. left. by exists v.
    + intros c [(v' & _ & _ & ->)|(b & Hb & _ & ->)]%elem_of_identify_conflicts;
        simpl; [done|].
      intros Heq. destruct Hout. rewrite <- Heq. apply elem_of_top_ids. by exists b.
  - apply elem_of_difference in Hb as [(b & Hb & <-)%elem_of_top_ids Hout].
    apply foldl_resolve_step_same.
    + exists (bm25_conflict vector_results b). split; [|done].
      apply elem_of_identify_conflicts. right. by exists b.
    + intros c [(v & Hv' & _ & ->)|(b' & _ & _ & ->)]%elem_of_identify_conflicts;
        simpl; [|done].
      intros Heq. destruct Hout. rewrite <- Heq. apply elem_of_top_ids. by exists v.
  - rewrite foldl_resolve_step_other; [done|].
    intros c [(v & Hv' & Hout & ->)|(b & Hb' & Hout & ->)]%elem_of_identify_conflicts;
      simpl; intros <-.
    + destruct Hv. apply elem_of_difference. split; [|done].
      apply elem_of_top_ids. by exists v.
    + destruct Hb. apply elem_of_difference. split; [|done].
      apply elem_of_top_ids. by exists b.
Qed.

End ConflictFacts.
